(** * 14chanykt: the thread/post store of [server.js]

    A shallow embedding of the SQLite-backed handlers of [server.js]:
    the three tables created by [initDatabase], the seed of the eight
    boards, and the route handlers that read or write them.  Every
    handler is a function from the store to a response (and, for the
    POST routes, a new store); one handler runs to completion before
    the next one starts.  The [catch] branches (status 500) are reached
    where the request itself makes a handler throw ([text.trim] on a
    value that is no string) or makes SQLite refuse a statement (a limit
    that is no 64-bit integer), not by failures of the disk.  The
    driver runs the statements of [initDatabase] in an order of its own;
    on a file without tables that order decides whether the start
    succeeds.  The rate limiter in front of the two create routes and
    the routes that only serve files are left out. *)

From Stdlib Require Import ZArith NArith String Ascii List.
From stdpp Require Import base decidable option list sorting gmap.

Local Open Scope Z_scope.

(** ** JavaScript strings and request values *)

(** A JavaScript string is a sequence of UTF-16 code units; [length]
    counts code units, as [String.prototype.length] does. *)
Abbreviation jsstring := (list N).

(** The literals of [server.js] are written in UTF-8 in the source
    file; [utf16] gives the code units the engine holds for them. *)
Definition cont (a : ascii) : N := N.land (N_of_ascii a) 63.

Fixpoint utf16 (s : string) : jsstring :=
  match s with
  | EmptyString => []
  | String a r =>
      let b := N_of_ascii a in
      if (b <? 128)%N then b :: utf16 r
      else if (b <? 224)%N then
        match r with
        | String a1 r1 =>
            (N.shiftl (N.land b 31) 6 + cont a1)%N :: utf16 r1
        | _ => [65533%N]
        end
      else if (b <? 240)%N then
        match r with
        | String a1 (String a2 r2) =>
            (N.shiftl (N.land b 15) 12 + N.shiftl (cont a1) 6 + cont a2)%N
              :: utf16 r2
        | _ => [65533%N]
        end
      else
        match r with
        | String a1 (String a2 (String a3 r3)) =>
            let cp := (N.shiftl (N.land b 7) 18 + N.shiftl (cont a1) 12
                       + N.shiftl (cont a2) 6 + cont a3)%N in
            let v := (cp - 65536)%N in
            (55296 + N.shiftr v 10)%N :: (56320 + N.land v 1023)%N
              :: utf16 r3
        | _ => [65533%N]
        end
  end.

Arguments utf16 : simpl never.

Notation "'js' s" := (utf16 s%string) (at level 9, s at level 0, only parsing).

(** WhiteSpace and LineTerminator code units, the ones that
    [String.prototype.trim] strips. *)
Definition is_space (c : N) : bool :=
  ((9 <=? c) && (c <=? 13) || (c =? 32) || (c =? 160) || (c =? 5760)
   || (8192 <=? c) && (c <=? 8202) || (c =? 8232) || (c =? 8233)
   || (c =? 8239) || (c =? 8287) || (c =? 12288) || (c =? 65279))%N.

Fixpoint trim_start (s : jsstring) : jsstring :=
  match s with
  | c :: r => if is_space c then trim_start r else s
  | [] => []
  end.

(** [s.trim()] *)
Definition trim (s : jsstring) : jsstring :=
  rev (trim_start (rev (trim_start s))).

(** What UTF-8 keeps of a string: the driver hands strings to SQLite
    in UTF-8, where a surrogate without its partner becomes U+FFFD. *)
Definition is_high (c : N) : bool := ((55296 <=? c) && (c <=? 56319))%N.
Definition is_low (c : N) : bool := ((56320 <=? c) && (c <=? 57343))%N.

Fixpoint stored_text (s : jsstring) : jsstring :=
  match s with
  | [] => []
  | c :: r =>
      if is_high c then
        match r with
        | d :: r' =>
            if is_low d then c :: d :: stored_text r'
            else 65533%N :: stored_text r
        | [] => [65533%N]
        end
      else if is_low c then 65533%N :: stored_text r
      else c :: stored_text r
  end.

(** The values a field of a parsed body takes: missing, [null], a
    string, or another value (a number, a boolean, an array, an
    object).  Of such a value the handlers see whether it is truthy,
    and the driver binds it as an integer, a real or a text, which a
    TEXT column holds, and [=] on a TEXT column compares, as the text
    [stored] (NULL when the driver binds nothing); it has no [trim]. *)
Inductive jsval :=
| JUndefined
| JNull
| JStr (s : jsstring)
| JOther (truthy : bool) (stored : option jsstring).

Global Instance jsval_eq_dec : EqDecision jsval.
Proof. solve_decision. Defined.

(** ToBoolean: [undefined], [null] and [""] are falsy. *)
Definition truthy (v : jsval) : bool :=
  match v with
  | JStr (_ :: _) => true
  | JOther t _ => t
  | _ => false
  end.

(** [a || b] *)
Definition js_or (a b : jsval) : jsval := if truthy a then a else b.

(** The string held by a value that is known to be a string. *)
Definition str_of (v : jsval) : jsstring :=
  match v with
  | JStr s => s
  | _ => []
  end.

(** [!text || text.trim().length < min]; the right operand is only
    evaluated on a truthy [text].  [None]: [text] is truthy and not a
    string, [text.trim] is not a function and the call throws. *)
Definition text_rejected (min : nat) (text : jsval) : option bool :=
  if negb (truthy text) then Some true
  else
    match text with
    | JStr s => Some (length (trim s) <? min)%nat
    | _ => None
    end.

(** A bound parameter as SQLite stores it in a TEXT column: [null]
    (and an unbound [undefined]) is NULL, a string is the TEXT that
    UTF-8 keeps of it, another value is the text it is bound and
    converted to. *)
Definition sql_text (v : jsval) : option jsstring :=
  match v with
  | JStr s => Some (stored_text s)
  | JOther _ o => o
  | _ => None
  end.

(** [column = ?] on a TEXT column: NULL on either side is not a match,
    two texts match when they are the same text. *)
Definition sql_eq_text (col : option jsstring) (param : jsval) : bool :=
  match col, sql_text param with
  | Some a, Some b => bool_decide (a = b)
  | _, _ => false
  end.

(** [column = ?] on an INTEGER column against an id of the request
    ([None]: the request carries no integer there). *)
Definition sql_eq_int (col : Z) (param : option Z) : bool :=
  match param with
  | Some k => bool_decide (col = k)
  | None => false
  end.

(** ** Tables *)

(** A table with [id INTEGER PRIMARY KEY AUTOINCREMENT]: its rows by
    rowid, and the largest rowid handed out so far ([sqlite_sequence]).
    [SELECT *] yields a row as the pair of its [id] and its other
    columns. *)
Record table (A : Type) := Table {
  rows : gmap Z A;
  seq : Z
}.
Arguments Table {A} _ _.
Arguments rows {A} _.
Arguments seq {A} _.

Definition empty_table {A} : table A := Table ∅ 0.

Definition max_rowid {A} (m : gmap Z A) : Z :=
  foldr Z.max 0 (map_to_list m).*1.

(** The rowid AUTOINCREMENT picks: one more than the largest rowid
    that is or ever was in the table. *)
Definition new_rowid {A} (t : table A) : Z :=
  Z.max (seq t) (max_rowid (rows t)) + 1.

Definition by_rowid {A} : relation (Z * A) := λ x y, x.1 ≤ y.1.

Global Instance by_rowid_dec {A} (x y : Z * A) : Decision (by_rowid x y).
Proof. unfold by_rowid. apply _. Defined.

(** The rows in rowid order. *)
Definition scan {A} (t : table A) : list (Z * A) :=
  merge_sort by_rowid (map_to_list (rows t)).

(** [INSERT INTO t ... VALUES ...]; yields [lastID]. *)
Definition insert_row {A} (r : A) (t : table A) : table A * Z :=
  let k := new_rowid t in (Table (<[k := r]> (rows t)) k, k).

(** [UPDATE t SET ... WHERE id = ?] *)
Definition update_row {A} (f : A → A) (id : option Z) (t : table A) : table A :=
  match id with
  | Some k => Table (alter f k (rows t)) (seq t)
  | None => t
  end.

(** [DELETE FROM t WHERE id = ?] *)
Definition delete_row {A} (id : option Z) (t : table A) : table A :=
  match id with
  | Some k => Table (delete k (rows t)) (seq t)
  | None => t
  end.

(** [SELECT * FROM t WHERE id = ?] through [dbGet] *)
Definition get_row {A} (id : option Z) (t : table A) : option (Z * A) :=
  match id with
  | Some k => (λ r, (k, r)) <$> rows t !! k
  | None => None
  end.

(** [ORDER BY key] and [ORDER BY key DESC] over rows already in rowid
    order. *)
Definition asc {A} (key : A → Z) : relation (Z * A) :=
  λ x y, key x.2 ≤ key y.2.
Definition desc {A} (key : A → Z) : relation (Z * A) :=
  λ x y, key y.2 ≤ key x.2.

Global Instance asc_dec {A} (key : A → Z) (x y : Z * A) :
  Decision (asc key x y).
Proof. unfold asc. apply _. Defined.
Global Instance desc_dec {A} (key : A → Z) (x y : Z * A) :
  Decision (desc key x y).
Proof. unfold desc. apply _. Defined.

Definition order_by {A} (R : relation (Z * A)) `{∀ x y, Decision (R x y)}
    (l : list (Z * A)) : list (Z * A) :=
  merge_sort R l.

(** [LIMIT n] *)
Definition limit {A} (n : nat) (l : list A) : list A := take n l.

(** The first row of a result, as [dbGet] resolves it. *)
Definition first_row {A} (l : list A) : option A := head l.

(** [WHERE p] *)
Definition where_ {A} (p : Z * A → bool) (l : list (Z * A)) : list (Z * A) :=
  filter (λ r, p r = true) l.

(** ** The schema *)

(** Timestamps ([CURRENT_TIMESTAMP], UTC to the second) are counted in
    seconds; the text SQLite stores for them sorts the same way. *)

Module Board.
Record t := Row {
  code : jsstring;
  name : jsstring;
  description : option jsstring;
  created_at : Z
}.
End Board.

Module Thread.
Record t := Row {
  board_id : option Z;
  subject : option jsstring;
  name : option jsstring;
  text : jsstring;
  password : option jsstring;
  image_url : option jsstring;
  ip_address : option jsstring;
  bump_time : Z;
  created_at : Z;
  reply_count : Z;
  is_sticky : Z;
  is_locked : Z
}.
End Thread.

Module Post.
Record t := Row {
  thread_id : option Z;
  name : option jsstring;
  text : jsstring;
  password : option jsstring;
  image_url : option jsstring;
  ip_address : option jsstring;
  created_at : Z
}.
End Post.

Record db := Db {
  boards : table Board.t;
  threads : table Thread.t;
  posts : table Post.t
}.

(** The store right after the three [CREATE TABLE] of a first start. *)
Definition empty_db : db := Db empty_table empty_table empty_table.

(** [column = ?] on a nullable INTEGER column. *)
Definition sql_eq_ref (col : option Z) (param : option Z) : bool :=
  match col with
  | Some c => sql_eq_int c param
  | None => false
  end.

(** ** Responses *)

(** [board || { code: 'unknown', name: ... }] in the thread view. *)
Inductive board_view :=
| BoardRow (b : Z * Board.t)
| BoardStub (code name : jsstring).

(** The JSON bodies the handlers send. *)
Inductive body :=
| Err (error : jsstring)
| Boards (data : list (Z * Board.t))
| BoardPage (board : Z * Board.t) (threads : list (Z * Thread.t))
| ThreadPage (thread : Z * Thread.t) (posts : list (Z * Post.t))
    (board : board_view)
| ThreadCreated (message : jsstring) (threadId : Z) (board : jsval)
| PostCreated (message : jsstring) (postId : Z)
| PostDeleted (message : jsstring).

Record response := Response {
  status : Z;
  payload : body
}.

(** [res.json(b)] *)
Definition json (b : body) : response := Response 200 b.
(** [res.status(c).json({ error: e })] *)
Definition error (c : Z) (e : jsstring) : response := Response c (Err e).

(** ** initDatabase *)

(** [INSERT OR IGNORE INTO boards (code, name, description)]: the rowid
    is drawn first; a row with the same [code] (UNIQUE) makes the
    statement a no-op on the rows. *)
Definition insert_or_ignore (now : Z) (b : jsstring * jsstring * jsstring)
    (t : table Board.t) : table Board.t :=
  let '(code, name, description) := b in
  let k := new_rowid t in
  match where_ (λ r, bool_decide (Board.code r.2 = code)) (scan t) with
  | [] => Table (<[k := Board.Row code name (Some description) now]> (rows t)) k
  | _ :: _ => Table (rows t) k
  end.

Definition seed_boards : list (jsstring * jsstring * jsstring) :=
  [ (js "b", js "Без темы", js "Абсолютно случайный контент");
    (js "ykt", js "Якутск", js "Местные новости и обсуждения");
    (js "pol", js "Политика", js "Политические дискуссии");
    (js "a", js "Аниме", js "Аниме и манга");
    (js "g", js "Технологии", js "Компьютеры и программирование");
    (js "mu", js "Музыка", js "Музыка и аудио");
    (js "tv", js "Телевидение", js "Фильмы и сериалы");
    (js "v", js "Видеоигры", js "Игры и консоли") ].

(** [boards.forEach(board => db.run(...))]: the eight statements are
    handed to the driver one after another, outside [db.serialize()],
    and the driver runs them in an order of its own.  [order] lists the
    positions of the seed list in the order in which their inserts run;
    [clock i] is the time at which the insert of position [i] runs. *)
Definition seed_one (clock : nat → Z) (i : nat) (t : table Board.t)
    : table Board.t :=
  match seed_boards !! i with
  | Some b => insert_or_ignore (clock i) b t
  | None => t
  end.

Fixpoint seed_in (order : list nat) (clock : nat → Z) (t : table Board.t)
    : table Board.t :=
  match order with
  | [] => t
  | i :: order' => seed_in order' clock (seed_one clock i t)
  end.

(** [initDatabase] on a store that has its tables: they and the indexes
    are created only [IF NOT EXISTS], so the statements before the seed
    change nothing. *)
Definition initDatabase (order : list nat) (clock : nat → Z) (s : db) : db :=
  Db (seed_in order clock (boards s)) (threads s) (posts s).

(** Every insert of the seed runs once. *)
Definition whole_seed (order : list nat) : Prop :=
  order ≡ₚ List.seq 0 (length seed_boards).

(** [initDatabase] on a database file, which may lack tables: the
    fourteen statements in the order [sched] in which the driver runs
    them.  A statement on a table that is not there fails with "no such
    table"; no callback takes the error, so it ends the process
    ([None]). *)
Inductive table_name := TBoards | TThreads | TPosts.

Global Instance table_name_eq_dec : EqDecision table_name.
Proof. solve_decision. Defined.

Inductive statement :=
| CreateTable (t : table_name)
| CreateIndex (t : table_name)
| InsertBoard (i : nat).

Definition init_statements : list statement :=
  [ CreateTable TBoards; CreateTable TThreads; CreateTable TPosts;
    CreateIndex TThreads; CreateIndex TPosts; CreateIndex TThreads ]
  ++ (InsertBoard <$> List.seq 0 (length seed_boards)).

Record file := File {
  created : list table_name;
  content : db
}.

Definition has_table (t : table_name) (f : file) : bool :=
  bool_decide (t ∈ created f).

Definition exec (clock : nat → Z) (st : statement) (f : file) : option file :=
  match st with
  | CreateTable t =>
      Some (if has_table t f then f else File (t :: created f) (content f))
  | CreateIndex t => if has_table t f then Some f else None
  | InsertBoard i =>
      if has_table TBoards f
      then Some (File (created f) (initDatabase [i] clock (content f)))
      else None
  end.

Fixpoint start (sched : list statement) (clock : nat → Z) (f : file)
    : option file :=
  match sched with
  | [] => Some f
  | st :: sched' =>
      match exec clock st f with
      | Some f' => start sched' clock f'
      | None => None
      end
  end.

(** A database file that was just created. *)
Definition new_file : file := File [] empty_db.

(** The inserts of a schedule, in the order in which they run. *)
Definition seed_positions (sched : list statement) : list nat :=
  omap (λ st, match st with InsertBoard i => Some i | _ => None end) sched.

(** ** The handlers *)

Definition board_by_code (code : jsval) (s : db) : option (Z * Board.t) :=
  first_row (where_ (λ r, sql_eq_text (Some (Board.code r.2)) code)
               (scan (boards s))).

(** [GET /api/boards] *)
Definition listBoards (s : db) : response :=
  json (Boards (order_by by_rowid (scan (boards s)))).

(** [GET /api/board/:code] *)
Definition getBoard (code : jsval) (s : db) : response :=
  match board_by_code code s with
  | None => error 404 (js "Доска не найдена")
  | Some board =>
      let stickyThreads :=
        order_by (desc Thread.created_at)
          (where_ (λ r, sql_eq_ref (Thread.board_id r.2) (Some board.1)
                        && (Thread.is_sticky r.2 =? 1))
             (scan (threads s))) in
      let threads :=
        limit 20
          (order_by (desc Thread.bump_time)
             (where_ (λ r, sql_eq_ref (Thread.board_id r.2) (Some board.1)
                           && (Thread.is_sticky r.2 =? 0))
                (scan (threads s)))) in
      json (BoardPage board (stickyThreads ++ threads))
  end.

(** [GET /api/thread/:id] *)
Definition getThread (id : option Z) (s : db) : response :=
  match get_row id (threads s) with
  | None => error 404 (js "Тред не найден")
  | Some thread =>
      let posts :=
        limit 100
          (order_by (asc Post.created_at)
             (where_ (λ r, sql_eq_ref (Post.thread_id r.2) (Some thread.1))
                (scan (posts s)))) in
      let board :=
        match Thread.board_id thread.2 with
        | Some b => get_row (Some b) (boards s)
        | None => None
        end in
      json (ThreadPage thread posts
              match board with
              | Some b => BoardRow b
              | None => BoardStub (js "unknown") (js "Неизвестная доска")
              end)
  end.

Module ThreadForm.
Record t := Body {
  board : jsval;
  subject : jsval;
  name : jsval;
  text : jsval;
  password : jsval;
  image_url : jsval
}.
End ThreadForm.

(** [POST /api/thread/create]; [now] is the time of the INSERT, [ip]
    is [req.ip].  The two timestamp columns take their default in the
    same statement. *)
Definition createThread (now : Z) (ip : jsval) (b : ThreadForm.t) (s : db)
    : db * response :=
  match text_rejected 5 (ThreadForm.text b) with
  | None => (s, error 500 (js "Ошибка создания треда"))
  | Some true =>
      (s, error 400 (js "Текст должен содержать минимум 5 символов"))
  | Some false =>
      match board_by_code (ThreadForm.board b) s with
      | None => (s, error 400 (js "Неверная доска"))
      | Some boardData =>
          let '(threads', lastID) :=
            insert_row
              (Thread.Row
                 (Some boardData.1)
                 (sql_text (js_or (ThreadForm.subject b) JNull))
                 (sql_text (js_or (ThreadForm.name b) (JStr (js "Аноним"))))
                 (stored_text (trim (str_of (ThreadForm.text b))))
                 (sql_text (js_or (ThreadForm.password b) JNull))
                 (sql_text (js_or (ThreadForm.image_url b) JNull))
                 (sql_text (js_or ip (JStr (js "unknown"))))
                 now now 0 0 0)
              (threads s) in
          (Db (boards s) threads' (posts s),
           json (ThreadCreated (js "Тред создан") lastID
                   (ThreadForm.board b)))
      end
  end.

Module PostForm.
Record t := Body {
  thread_id : option Z;
  name : jsval;
  text : jsval;
  password : jsval;
  image_url : jsval
}.
End PostForm.

(** [UPDATE threads SET bump_time = CURRENT_TIMESTAMP,
    reply_count = reply_count + 1]; the counter is an unbounded integer
    here (SQLite's leaves the integers past 2^63 - 1). *)
Definition bump (now : Z) (th : Thread.t) : Thread.t :=
  Thread.Row (Thread.board_id th) (Thread.subject th) (Thread.name th)
    (Thread.text th) (Thread.password th) (Thread.image_url th)
    (Thread.ip_address th) now (Thread.created_at th)
    (Thread.reply_count th + 1) (Thread.is_sticky th) (Thread.is_locked th).

(** [POST /api/post/create]; [now_insert] and [now_update] are the
    times of the INSERT and of the UPDATE that follows it. *)
Definition createPost (now_insert now_update : Z) (ip : jsval)
    (b : PostForm.t) (s : db) : db * response :=
  match text_rejected 1 (PostForm.text b) with
  | None => (s, error 500 (js "Ошибка создания поста"))
  | Some true => (s, error 400 (js "Введите текст поста"))
  | Some false =>
      match get_row (PostForm.thread_id b) (threads s) with
      | None => (s, error 404 (js "Тред не найден"))
      | Some thread =>
          if negb (Thread.is_locked thread.2 =? 0) then
            (s, error 400 (js "Тред закрыт для ответов"))
          else
            let '(posts', lastID) :=
              insert_row
                (Post.Row
                   (PostForm.thread_id b)
                   (sql_text (js_or (PostForm.name b) (JStr (js "Аноним"))))
                   (stored_text (trim (str_of (PostForm.text b))))
                   (sql_text (js_or (PostForm.password b) JNull))
                   (sql_text (js_or (PostForm.image_url b) JNull))
                   (sql_text (js_or ip (JStr (js "unknown"))))
                   now_insert)
                (posts s) in
            let threads' :=
              update_row (bump now_update) (PostForm.thread_id b)
                (threads s) in
            (Db (boards s) threads' posts',
             json (PostCreated (js "Пост добавлен") lastID))
      end
  end.

Module DeleteForm.
Record t := Body {
  post_id : option Z;
  password : jsval
}.
End DeleteForm.

(** [POST /api/post/delete] *)
Definition deletePost (b : DeleteForm.t) (s : db) : db * response :=
  if negb (truthy (DeleteForm.password b)) then
    (s, error 400 (js "Введите пароль"))
  else
    let post :=
      first_row
        (where_ (λ r, sql_eq_int r.1 (DeleteForm.post_id b)
                      && sql_eq_text (Post.password r.2) (DeleteForm.password b))
           (scan (posts s))) in
    match post with
    | Some _ =>
        (Db (boards s) (threads s) (delete_row (DeleteForm.post_id b) (posts s)),
         json (PostDeleted (js "Пост удален")))
    | None => (s, error 400 (js "Неверный пароль или пост не найден"))
    end.

(** ** Runs of the server *)

Inductive request :=
| ListBoards
| GetBoard (code : jsval)
| GetThread (id : option Z)
| CreateThread (now : Z) (ip : jsval) (b : ThreadForm.t)
| CreatePost (now_insert now_update : Z) (ip : jsval) (b : PostForm.t)
| DeletePost (b : DeleteForm.t).

Definition handle (r : request) (s : db) : db * response :=
  match r with
  | ListBoards => (s, listBoards s)
  | GetBoard code => (s, getBoard code s)
  | GetThread id => (s, getThread id s)
  | CreateThread now ip b => createThread now ip b s
  | CreatePost t1 t2 ip b => createPost t1 t2 ip b s
  | DeletePost b => deletePost b s
  end.

(** What happens to the store over time: the process (re)starts, which
    runs [initDatabase], or a request is served. *)
Inductive event :=
| Startup (order : list nat) (clock : nat → Z)
| Request (r : request).

Definition step (e : event) (s : db) : db * option response :=
  match e with
  | Startup order clock => (initDatabase order clock s, None)
  | Request r => let '(s', res) := handle r s in (s', Some res)
  end.

Fixpoint run (es : list event) (s : db) : db * list (option response) :=
  match es with
  | [] => (s, [])
  | e :: es' =>
      let '(s1, res) := step e s in
      let '(s2, rest) := run es' s1 in
      (s2, res :: rest)
  end.

(** ** Vocabulary of the statements *)

(** A row [r] as [SELECT *] yields it is stored in table [t]. *)
Definition stored {A} (t : table A) (r : Z * A) : Prop :=
  rows t !! r.1 = Some r.2.

(** Non-sticky and sticky threads of the board with rowid [b]. *)
Definition plain_on (b : Z) (s : db) (r : Z * Thread.t) : Prop :=
  stored (threads s) r ∧ Thread.board_id r.2 = Some b ∧ Thread.is_sticky r.2 = 0.
Definition sticky_on (b : Z) (s : db) (r : Z * Thread.t) : Prop :=
  stored (threads s) r ∧ Thread.board_id r.2 = Some b ∧ Thread.is_sticky r.2 = 1.

(** The posts of the thread with rowid [k]. *)
Definition post_of (k : Z) (s : db) (r : Z * Post.t) : Prop :=
  stored (posts s) r ∧ Post.thread_id r.2 = Some k.

(** Some board has the code [c]. *)
Definition has_code (t : table Board.t) (c : jsstring) : Prop :=
  ∃ r, stored t r ∧ Board.code r.2 = c.

(** Every board of the seed list is there. *)
Definition all_seeded (s : db) : Prop :=
  ∀ b, b ∈ seed_boards → has_code (boards s) b.1.1.

(** A handler accepted the request: it answered through [res.json]
    without setting an error status. *)
Definition accepted (res : option response) : bool :=
  match res with
  | Some r => status r =? 200
  | None => false
  end.

(** The time of the UPDATE when [e] is a post creation aimed at the
    thread with rowid [k]. *)
Definition post_on (k : Z) (e : event) : option Z :=
  match e with
  | Request (CreatePost _ now_update _ b) =>
      if bool_decide (PostForm.thread_id b = Some k) then Some now_update
      else None
  | _ => None
  end.

(** How many post creations aimed at thread [k] were accepted in a run
    with events [es] and answers [rs]. *)
Fixpoint accepted_posts (k : Z) (es : list event)
    (rs : list (option response)) : Z :=
  match es, rs with
  | e :: es', r :: rs' =>
      match post_on k e with
      | Some _ => if accepted r then 1 else 0
      | None => 0
      end + accepted_posts k es' rs'
  | _, _ => 0
  end.

(** The clock read by the UPDATE of a post creation. *)
Definition update_time (e : event) : option Z :=
  match e with
  | Request (CreatePost _ now_update _ _) => Some now_update
  | _ => None
  end.

(** The clock does not run backwards: starting from a reading [t0], the
    successive UPDATE times of [es] never decrease. *)
Fixpoint clock_forward (t0 : Z) (es : list event) : Prop :=
  match es with
  | [] => True
  | e :: es' =>
      match update_time e with
      | Some t => t0 ≤ t ∧ clock_forward t es'
      | None => clock_forward t0 es'
      end
  end.

(** The error answers by the name the specification gives them. *)
Definition text_too_short : response :=
  error 400 (js "Текст должен содержать минимум 5 символов").
Definition invalid_board : response := error 400 (js "Неверная доска").
Definition post_text_missing : response :=
  error 400 (js "Введите текст поста").
Definition thread_not_found : response := error 404 (js "Тред не найден").
Definition thread_locked : response :=
  error 400 (js "Тред закрыт для ответов").
Definition password_missing : response := error 400 (js "Введите пароль").
Definition unauthorized : response :=
  error 400 (js "Неверный пароль или пост не найден").
Definition thread_failed : response := error 500 (js "Ошибка создания треда").
Definition post_failed : response := error 500 (js "Ошибка создания поста").

(** The answers with status 404 are the not-found results. *)
Definition not_found (r : response) : Prop := status r = 404.

(** ** Sample stores and requests *)

Definition sample_clock (i : nat) : Z := 1700000000 + Z.of_nat i.

(** The store after a first start. *)
Definition seeded : db :=
  initDatabase [0; 1; 2; 3; 4; 5; 6; 7]%nat sample_clock empty_db.

Definition thread_form (board text : jsstring) : ThreadForm.t :=
  ThreadForm.Body (JStr board) JUndefined JUndefined (JStr text)
    JUndefined JUndefined.

Definition post_form (k : Z) (text password : jsval) : PostForm.t :=
  PostForm.Body (Some k) JUndefined text password JUndefined.

(** The flags of a thread as moderation tooling outside the server
    sets them. *)
Definition set_flags (sticky locked : Z) (th : Thread.t) : Thread.t :=
  Thread.Row (Thread.board_id th) (Thread.subject th) (Thread.name th)
    (Thread.text th) (Thread.password th) (Thread.image_url th)
    (Thread.ip_address th) (Thread.bump_time th) (Thread.created_at th)
    (Thread.reply_count th) sticky locked.

Definition moderate (k sticky locked : Z) (s : db) : db :=
  Db (boards s) (update_row (set_flags sticky locked) (Some k) (threads s))
    (posts s).

(** One thread on /b/. *)
Definition one_thread : db :=
  (createThread 1700000100 JUndefined
     (thread_form (js "b") (js "hello world")) seeded).1.

(** The same store with the thread locked. *)
Definition locked_store : db := moderate 1 0 1 one_thread.

(** Three threads on /b/, the second one sticky, and two posts on the
    first, the second post with a password. *)
Definition busy_store : db :=
  (run [ Request (CreateThread 1700000200 JUndefined
                    (thread_form (js "b") (js "second thread")));
         Request (CreateThread 1700000300 JUndefined
                    (thread_form (js "b") (js "third thread")));
         Request (CreatePost 1700000400 1700000400 JUndefined
                    (post_form 1 (JStr (js "first reply")) JUndefined));
         Request (CreatePost 1700000500 1700000501 JUndefined
                    (post_form 1 (JStr (js "second reply"))
                       (JStr (js "secret")))) ]
     (moderate 2 1 0
        (createThread 1700000150 JUndefined
           (thread_form (js "b") (js "pinned thread")) one_thread).1)).1.

(** A run from the fresh store: a start, a thread on /b/ and two posts
    on it, the second one with a password. *)
Definition replay : list event :=
  [ Startup [0; 1; 2; 3; 4; 5; 6; 7]%nat sample_clock;
    Request (CreateThread 1700000100 JUndefined
               (thread_form (js "b") (js "hello world")));
    Request (CreatePost 1700000400 1700000400 JUndefined
               (post_form 1 (JStr (js "first reply")) JUndefined));
    Request (CreatePost 1700000500 1700000501 JUndefined
               (post_form 1 (JStr (js "second reply"))
                  (JStr (js "secret")))) ].

Definition replayed : db := (run replay empty_db).1.

(** The rows these stores hold. *)
Definition b_board : Z * Board.t :=
  (1, Board.Row (js "b") (js "Без темы")
        (Some (js "Абсолютно случайный контент")) 1700000000).

Definition first_thread : Thread.t :=
  Thread.Row (Some 1) None (Some (js "Аноним")) (js "hello world") None None
    (Some (js "unknown")) 1700000100 1700000100 0 0 0.

Definition locked_thread : Thread.t := set_flags 0 1 first_thread.

Definition bumped_thread : Thread.t :=
  bump 1700000501 (bump 1700000400 first_thread).

Definition plain_post : Post.t :=
  Post.Row (Some 1) (Some (js "Аноним")) (js "first reply") None None
    (Some (js "unknown")) 1700000400.

Definition secret_post : Post.t :=
  Post.Row (Some 1) (Some (js "Аноним")) (js "second reply")
    (Some (js "secret")) None (Some (js "unknown")) 1700000500.

(** A password that ends in a high surrogate without its partner, and
    the replayed store after a third post that was sent with it. *)
Definition torn_password : jsstring := [112; 119; 55357]%N.

Definition torn_store : db :=
  (createPost 1700000600 1700000600 JUndefined
     (post_form 1 (JStr (js "third reply")) (JStr torn_password))
     replayed).1.

(** ** The remaining routes *)

(** [SELECT COUNT( * ) FROM t] *)
Definition count_rows {A} (t : table A) : Z := Z.of_nat (size (rows t)).



(** A row of [GET /api/posts/recent]: [p.*] with the code of the board
    and the subject of the thread the post is joined to. *)
Record recent := Recent {
  post : Z * Post.t;
  board_code : jsstring;
  thread_subject : option jsstring
}.

(** [FROM posts p JOIN threads t ON p.thread_id = t.id
                  JOIN boards b ON t.board_id = b.id] *)
Definition join_post (s : db) (p : Z * Post.t) : option recent :=
  match get_row (Post.thread_id p.2) (threads s) with
  | Some t =>
      match get_row (Thread.board_id t.2) (boards s) with
      | Some b => Some (Recent p (Board.code b.2) (Thread.subject t.2))
      | None => None
      end
  | None => None
  end.

Definition recent_join (s : db) : list recent :=
  omap (join_post s) (scan (posts s)).

(** [ORDER BY p.created_at DESC] *)
Definition newest_first : relation recent :=
  λ x y, Post.created_at (post y).2 ≤ Post.created_at (post x).2.

Global Instance newest_first_dec (x y : recent) : Decision (newest_first x y).
Proof. unfold newest_first. apply _. Defined.

(** [LIMIT ?] with a bound integer: a negative limit is no limit. *)
Definition limit_param {A} (n : Z) (l : list A) : list A :=
  if n <? 0 then l else take (Z.to_nat n) l.

(** [parseInt(req.query.limit) || 15], from the integer [parseInt]
    yields ([None]: NaN; an infinite result counts as an integer out of
    every range); 0 and NaN are falsy. *)
Definition recent_limit (parsed : option Z) : Z :=
  match parsed with
  | Some n => if n =? 0 then 15 else n
  | None => 15
  end.

(** SQLite takes as a limit the numbers that are 64-bit integers; a
    number parsed from more digits reaches it as a real it refuses
    ("datatype mismatch"). *)
Definition fits_int64 (n : Z) : bool :=
  (-9223372036854775808 <? n) && (n <? 9223372036854775808).

(** The answers of [GET /api/posts/recent]: status 200 with the rows,
    or the [catch] branch. *)
Inductive recent_answer :=
| RecentRows (data : list recent)
| RecentError (status : Z) (error : jsstring).

(** [GET /api/posts/recent] *)
Definition listRecentPosts (parsed : option Z) (s : db) : recent_answer :=
  if fits_int64 (recent_limit parsed)
  then RecentRows
         (limit_param (recent_limit parsed)
            (merge_sort newest_first (recent_join s)))
  else RecentError 500 (js "Ошибка сервера").

(** ** Vocabulary of the further statements *)

(** The row [createThread] inserts for a body [b] on the board with
    rowid [board], and the row [createPost] inserts. *)
Definition thread_row (now : Z) (ip : jsval) (b : ThreadForm.t) (board : Z)
    : Thread.t :=
  Thread.Row (Some board)
    (sql_text (js_or (ThreadForm.subject b) JNull))
    (sql_text (js_or (ThreadForm.name b) (JStr (js "Аноним"))))
    (stored_text (trim (str_of (ThreadForm.text b))))
    (sql_text (js_or (ThreadForm.password b) JNull))
    (sql_text (js_or (ThreadForm.image_url b) JNull))
    (sql_text (js_or ip (JStr (js "unknown"))))
    now now 0 0 0.

Definition post_row (now : Z) (ip : jsval) (b : PostForm.t) : Post.t :=
  Post.Row (PostForm.thread_id b)
    (sql_text (js_or (PostForm.name b) (JStr (js "Аноним"))))
    (stored_text (trim (str_of (PostForm.text b))))
    (sql_text (js_or (PostForm.password b) JNull))
    (sql_text (js_or (PostForm.image_url b) JNull))
    (sql_text (js_or ip (JStr (js "unknown"))))
    now.

Global Instance thread_eq_dec : EqDecision Thread.t.
Proof. solve_decision. Defined.
Global Instance post_eq_dec : EqDecision Post.t.
Proof. solve_decision. Defined.

(** No rowid of the table is above its sequence. *)
Definition seq_ok {A} (t : table A) : Prop :=
  ∀ k a, rows t !! k = Some a → k ≤ seq t.

Global Instance seq_ok_dec {A} (t : table A) : Decision (seq_ok t).
Proof.
  refine (map_Forall_dec (λ k _, k ≤ seq t) (rows t)).
  intros k a. cbn. apply _.
Defined.

(** The ids the answers of a run hand out. *)
Definition post_id_of (res : option response) : option Z :=
  match res with
  | Some (Response _ (PostCreated _ id)) => Some id
  | _ => None
  end.
Definition thread_id_of (res : option response) : option Z :=
  match res with
  | Some (Response _ (ThreadCreated _ id _)) => Some id
  | _ => None
  end.

(** Every post belongs to a stored thread and every thread to a stored
    board. *)
Definition ref_ok (s : db) : Prop :=
  (∀ r, stored (posts s) r →
        ∃ k th, Post.thread_id r.2 = Some k ∧ stored (threads s) (k, th)) ∧
  (∀ r, stored (threads s) r →
        ∃ b bd, Thread.board_id r.2 = Some b ∧ stored (boards s) (b, bd)).

(** A string with no white space at either end. *)
Definition trimmed (s : jsstring) : Prop :=
  (∀ c, head s = Some c → is_space c = false) ∧
  (∀ c, last s = Some c → is_space c = false).

(** A stored text with no white space at either end and of at least
    the code units the handler asks for. *)
Definition thread_text_ok (th : Thread.t) : Prop :=
  trimmed (Thread.text th) ∧ (5 ≤ length (Thread.text th))%nat.

Definition post_text_ok (p : Post.t) : Prop :=
  trimmed (Post.text p) ∧ (1 ≤ length (Post.text p))%nat.

Definition texts_ok (s : db) : Prop :=
  (∀ r, stored (threads s) r → thread_text_ok r.2) ∧
  (∀ r, stored (posts s) r → post_text_ok r.2).

(** No two boards share a code. *)
Definition codes_unique (t : table Board.t) : Prop :=
  ∀ r r', stored t r → stored t r' →
          Board.code r.2 = Board.code r'.2 → r = r'.
Definition unique_codes (s : db) : Prop := codes_unique (boards s).

(** How many posts of thread [k] are stored. *)
Definition posts_count (k : Z) (s : db) : Z :=
  Z.of_nat
    (length (where_ (λ r, sql_eq_ref (Post.thread_id r.2) (Some k))
               (scan (posts s)))).



(** ** Facts about tables and queries *)

Section tables.
Context {A : Type}.
Implicit Types (t : table A) (m : gmap Z A) (l : list (Z * A)).

Global Instance by_rowid_total : Total (@by_rowid A).
Proof. intros x y. unfold by_rowid. lia. Qed.
Global Instance by_rowid_trans : Transitive (@by_rowid A).
Proof. intros x y z. unfold by_rowid. lia. Qed.
Global Instance asc_total (key : A → Z) : Total (asc key).
Proof. intros x y. unfold asc. lia. Qed.
Global Instance asc_trans (key : A → Z) : Transitive (asc key).
Proof. intros x y z. unfold asc. lia. Qed.
Global Instance desc_total (key : A → Z) : Total (desc key).
Proof. intros x y. unfold desc. lia. Qed.
Global Instance desc_trans (key : A → Z) : Transitive (desc key).
Proof. intros x y z. unfold desc. lia. Qed.

Lemma scan_perm t : scan t ≡ₚ map_to_list (rows t).
Proof. apply merge_sort_Permutation. Qed.

Lemma elem_of_scan t r : r ∈ scan t ↔ stored t r.
Proof.
  rewrite scan_perm. destruct r as [k a]. apply elem_of_map_to_list.
Qed.

Lemma NoDup_scan t : NoDup (scan t).
Proof. rewrite scan_perm. apply NoDup_map_to_list. Qed.

Lemma scan_sorted t : StronglySorted by_rowid (scan t).
Proof. apply StronglySorted_merge_sort; apply _. Qed.

Lemma max_list_ge (ks : list Z) k : k ∈ ks → k ≤ foldr Z.max 0 ks.
Proof.
  induction ks as [|k' ks IH]; [by intros ?%elem_of_nil|].
  intros [->|Hin]%elem_of_cons; simpl; [lia|].
  specialize (IH Hin). lia.
Qed.

Lemma max_rowid_ge m k a : m !! k = Some a → k ≤ max_rowid m.
Proof.
  intros Hk. apply max_list_ge, list_elem_of_fmap.
  exists (k, a). split; [done|]. by apply elem_of_map_to_list.
Qed.

Lemma new_rowid_fresh t : rows t !! new_rowid t = None.
Proof.
  destruct (rows t !! new_rowid t) as [a|] eqn:Hk; [|done].
  apply max_rowid_ge in Hk. unfold new_rowid in Hk. lia.
Qed.

Section queries.
Context (R : relation (Z * A)) `{∀ x y, Decision (R x y)}.
Context `{!Total R, !Transitive R}.

Lemma order_by_perm l : order_by R l ≡ₚ l.
Proof. apply merge_sort_Permutation. Qed.

Lemma order_by_sorted l : StronglySorted R (order_by R l).
Proof. apply StronglySorted_merge_sort; apply _. Qed.

Lemma elem_of_order_by l r : r ∈ order_by R l ↔ r ∈ l.
Proof. by rewrite order_by_perm. Qed.

Lemma NoDup_order_by l : NoDup l → NoDup (order_by R l).
Proof. by rewrite order_by_perm. Qed.

(** What [ORDER BY ... LIMIT n] keeps: a sorted prefix, so every
    row it leaves out comes after every row it keeps. *)
Lemma limit_order_by_cut n l r r' :
  NoDup l → r ∈ l → r ∉ limit n (order_by R l) →
  r' ∈ limit n (order_by R l) → R r' r.
Proof.
  intros Hnd Hr Hout Hin. unfold limit in *.
  pose proof (order_by_sorted l) as Hs.
  rewrite <- (take_drop n (order_by R l)) in Hs.
  eapply StronglySorted_app_1_elem_of; [exact Hs|exact Hin|].
  apply elem_of_order_by in Hr.
  rewrite <- (take_drop n (order_by R l)) in Hr.
  apply elem_of_app in Hr as [Hr|Hr]; [by destruct Hout|done].
Qed.

Lemma limit_order_by_sorted n l :
  StronglySorted R (limit n (order_by R l)).
Proof.
  pose proof (order_by_sorted l) as Hs.
  rewrite <- (take_drop n (order_by R l)) in Hs.
  by apply StronglySorted_app_1_l in Hs.
Qed.

Lemma limit_all n l r :
  (length (limit n (order_by R l)) < n)%nat → r ∈ l →
  r ∈ limit n (order_by R l).
Proof.
  unfold limit. rewrite length_take. intros Hlen Hr.
  rewrite take_ge by lia. by apply elem_of_order_by.
Qed.
End queries.

Lemma limit_length n (l : list (Z * A)) : (length (limit n l) ≤ n)%nat.
Proof. unfold limit. rewrite length_take. lia. Qed.

Lemma limit_sublist n (l : list (Z * A)) : limit n l `sublist_of` l.
Proof. apply sublist_take. Qed.

Lemma elem_of_where p t r :
  r ∈ where_ p (scan t) ↔ stored t r ∧ p r = true.
Proof.
  unfold where_. rewrite list_elem_of_filter, elem_of_scan. tauto.
Qed.

Lemma NoDup_where p t : NoDup (where_ p (scan t)).
Proof. apply NoDup_filter, NoDup_scan. Qed.

Lemma first_row_Some p t r :
  first_row (where_ p (scan t)) = Some r → stored t r ∧ p r = true.
Proof.
  intros Hh. apply elem_of_where. unfold first_row in Hh.
  by apply head_Some_elem_of.
Qed.

Lemma first_row_None p t :
  first_row (where_ p (scan t)) = None ↔ ∀ r, stored t r → p r = false.
Proof.
  unfold first_row. rewrite head_None. split.
  - intros Hnil r Hr. destruct (p r) eqn:Hp; [|done].
    assert (r ∈ where_ p (scan t)) as Hin by by apply elem_of_where.
    rewrite Hnil in Hin. by apply elem_of_nil in Hin.
  - intros Hall. destruct (where_ p (scan t)) as [|r l] eqn:Hw; [done|].
    assert (r ∈ where_ p (scan t)) as Hin by (rewrite Hw; left).
    apply elem_of_where in Hin as [Hr Hp]. rewrite (Hall r Hr) in Hp.
    discriminate.
Qed.

Lemma get_row_Some id t r :
  get_row id t = Some r ↔ id = Some r.1 ∧ stored t r.
Proof.
  unfold get_row, stored. destruct id as [k|]; [|split; [done|intros [[=] _]]].
  destruct r as [k' a]. simpl. destruct (rows t !! k) as [a'|] eqn:Hk; simpl.
  - split; [intros [= <- <-]; by rewrite Hk|].
    intros [[= <-] Hs]. rewrite Hk in Hs. by injection Hs as ->.
  - split; [done|]. intros [[= <-] Hs]. by rewrite Hk in Hs.
Qed.

Lemma insert_row_lookup (a : A) t k :
  rows (insert_row a t).1 !! k =
    if decide (new_rowid t = k) then Some a else rows t !! k.
Proof. unfold insert_row. simpl. apply lookup_insert. Qed.

Lemma insert_row_keeps (a : A) t r :
  stored t r → stored (insert_row a t).1 r.
Proof.
  unfold stored. intros Hr. rewrite insert_row_lookup.
  case_decide as Hk; [|done]. rewrite <- Hk, new_rowid_fresh in Hr. done.
Qed.
End tables.

(** ** Board listing *)

Lemma sql_eq_ref_true col k : sql_eq_ref col (Some k) = true ↔ col = Some k.
Proof.
  unfold sql_eq_ref, sql_eq_int. destruct col as [c|]; [|done].
  rewrite bool_decide_eq_true. naive_solver.
Qed.

Lemma plain_filter b s r :
  r ∈ where_ (λ r, sql_eq_ref (Thread.board_id r.2) (Some b)
                   && (Thread.is_sticky r.2 =? 0)) (scan (threads s))
  ↔ plain_on b s r.
Proof.
  rewrite elem_of_where, andb_true_iff, sql_eq_ref_true, Z.eqb_eq.
  unfold plain_on. tauto.
Qed.

Lemma sticky_filter b s r :
  r ∈ where_ (λ r, sql_eq_ref (Thread.board_id r.2) (Some b)
                   && (Thread.is_sticky r.2 =? 1)) (scan (threads s))
  ↔ sticky_on b s r.
Proof.
  rewrite elem_of_where, andb_true_iff, sql_eq_ref_true, Z.eqb_eq.
  unfold sticky_on. tauto.
Qed.

(** C1. For a board that exists, [getBoard] answers with the list
    [stickies ++ plain] where [stickies] holds every sticky thread of
    the board, each once, by [created_at] descending, and [plain] holds
    at most 20 non-sticky threads of the board by [bump_time]
    descending: the 20 most recently bumped ones (all of them when
    there are fewer).  No limit applies to [stickies], and they come
    before every non-sticky thread whatever the bump times are. *)
Theorem getBoard_listing code s board :
  board_by_code code s = Some board →
  ∃ stickies plain,
    getBoard code s = json (BoardPage board (stickies ++ plain)) ∧
    (∀ r, r ∈ stickies ↔ sticky_on board.1 s r) ∧
    NoDup stickies ∧
    StronglySorted (desc Thread.created_at) stickies ∧
    (length plain ≤ 20)%nat ∧
    (∀ r, r ∈ plain → plain_on board.1 s r) ∧
    NoDup plain ∧
    StronglySorted (desc Thread.bump_time) plain ∧
    (∀ r r', plain_on board.1 s r → r ∉ plain → r' ∈ plain →
             Thread.bump_time r.2 ≤ Thread.bump_time r'.2) ∧
    ((length plain < 20)%nat → ∀ r, plain_on board.1 s r → r ∈ plain).
Proof.
  intros Hb. unfold getBoard. rewrite Hb.
  set (P := λ r : Z * Thread.t,
         sql_eq_ref (Thread.board_id r.2) (Some board.1)
         && (Thread.is_sticky r.2 =? 0)).
  set (St := λ r : Z * Thread.t,
         sql_eq_ref (Thread.board_id r.2) (Some board.1)
         && (Thread.is_sticky r.2 =? 1)).
  eexists _, _. split; [reflexivity|].
  split; [|split; [|split; [|split; [|split; [|split; [|split; [|split]]]]]]].
  - intros r. rewrite elem_of_order_by. apply sticky_filter.
  - apply NoDup_order_by, NoDup_where.
  - apply order_by_sorted; apply _.
  - apply limit_length.
  - intros r Hr. apply plain_filter. fold P.
    eapply elem_of_order_by. eapply elem_of_sublist; [exact Hr|].
    apply limit_sublist.
  - eapply sublist_NoDup; [|apply limit_sublist].
    apply NoDup_order_by, NoDup_where.
  - apply limit_order_by_sorted; apply _.
  - intros r r' Hr Hout Hin. apply plain_filter in Hr. fold P in Hr.
    apply (limit_order_by_cut (desc Thread.bump_time) 20
             (where_ P (scan (threads s))) r r'); try done.
    apply NoDup_where.
  - intros Hlen r Hr. apply plain_filter in Hr. fold P in Hr.
    by apply limit_all.
Qed.

(** ** Bumping *)

Lemma createThread_keeps now ip b s r :
  stored (threads s) r → stored (threads (createThread now ip b s).1) r.
Proof.
  intros Hr. unfold createThread.
  destruct (text_rejected 5 _) as [[|]|];
    [done| |done].
  destruct (board_by_code _ s) as [bd|]; [|done].
  simpl. by apply insert_row_keeps.
Qed.

Lemma deletePost_threads b s : threads (deletePost b s).1 = threads s.
Proof.
  unfold deletePost. destruct (negb _); [done|]. by destruct (first_row _).
Qed.

(** What a post creation does to the threads table. *)
Lemma createPost_threads t1 t2 ip b s :
  threads (createPost t1 t2 ip b s).1 =
    if accepted (Some (createPost t1 t2 ip b s).2)
    then update_row (bump t2) (PostForm.thread_id b) (threads s)
    else threads s.
Proof.
  unfold createPost. destruct (text_rejected 1 _) as [[|]|];
    [done| |done].
  destruct (get_row _ _) as [th|]; [|done].
  by destruct (negb _).
Qed.

Lemma step_thread e s k th :
  stored (threads s) (k, th) →
  ∃ th', stored (threads (step e s).1) (k, th') ∧
    match post_on k e with
    | Some now =>
        if accepted (step e s).2 then th' = bump now th else th' = th
    | None => th' = th
    end.
Proof.
  intros Hk. destruct e as [order clock|r]; [by exists th|].
  destruct r as [|code|id|now ip b|t1 t2 ip b|b]; simpl;
    try (by exists th).
  - exists th. split; [|done].
    destruct (createThread now ip b s) as [s' res] eqn:Hc. simpl.
    change s' with (s', res).1. rewrite <- Hc. by apply createThread_keeps.
  - pose proof (createPost_threads t1 t2 ip b s) as Ht.
    destruct (createPost t1 t2 ip b s) as [s' res]. simpl in *.
    unfold stored in *. rewrite Ht. simpl in *.
    case_bool_decide as Hid.
    + rewrite Hid. destruct (status res =? 200); [|by exists th].
      exists (bump t2 th). split; [|done]. simpl.
      by rewrite lookup_alter_eq, Hk.
    + destruct (status res =? 200); [|by exists th].
      exists th. split; [|done].
      destruct (PostForm.thread_id b) as [k'|]; [|done]. simpl.
      rewrite lookup_alter_ne; [done|]. congruence.
  - exists th. split; [|done].
    pose proof (deletePost_threads b s) as Ht.
    destruct (deletePost b s) as [s' res]. simpl in *. by rewrite Ht.
Qed.

Lemma run_cons e es s :
  run (e :: es) s =
    ((run es (step e s).1).1, (step e s).2 :: (run es (step e s).1).2).
Proof.
  simpl. destruct (step e s) as [s1 res]. simpl.
  by destruct (run es s1) as [s2 rest].
Qed.

Lemma run_reply_count es : ∀ s k th,
  stored (threads s) (k, th) →
  ∃ th', stored (threads (run es s).1) (k, th') ∧
    Thread.reply_count th' =
      Thread.reply_count th + accepted_posts k es (run es s).2.
Proof.
  induction es as [|e es IH]; intros s k th Hk.
  - exists th. simpl. split; [done|lia].
  - rewrite run_cons. simpl.
    destruct (step_thread e s k th Hk) as (th1 & Hk1 & Hstep).
    destruct (IH _ _ _ Hk1) as (th' & Hk' & Hcount).
    exists th'. split; [done|]. rewrite Hcount.
    destruct (post_on k e) as [now|]; [|subst; lia].
    destruct (accepted (step e s).2); subst; simpl; lia.
Qed.

Lemma post_on_update_time k e now :
  post_on k e = Some now → update_time e = Some now.
Proof.
  destruct e as [|[]]; simpl; try done. by case_bool_decide.
Qed.

Lemma run_bump_time es : ∀ s k th t0,
  stored (threads s) (k, th) →
  Thread.bump_time th ≤ t0 → clock_forward t0 es →
  ∃ th', stored (threads (run es s).1) (k, th') ∧
    Thread.bump_time th ≤ Thread.bump_time th'.
Proof.
  induction es as [|e es IH]; intros s k th t0 Hk Ht0 Hclock.
  - exists th. simpl. split; [done|lia].
  - rewrite run_cons. simpl in *.
    destruct (step_thread e s k th Hk) as (th1 & Hk1 & Hstep).
    destruct (update_time e) as [t|] eqn:Hut.
    + destruct Hclock as [Hle Hclock].
      assert (Thread.bump_time th ≤ Thread.bump_time th1 ∧
              Thread.bump_time th1 ≤ t) as [H1 H2].
      { destruct (post_on k e) as [now|] eqn:Hpost; [|subst; lia].
        apply post_on_update_time in Hpost.
        assert (now = t) as -> by congruence.
        destruct (accepted (step e s).2); subst; simpl; lia. }
      destruct (IH _ _ _ _ Hk1 H2 Hclock) as (th' & Hk' & Hmono).
      exists th'. split; [done|lia].
    + assert (th1 = th) as ->.
      { destruct (post_on k e) as [now|] eqn:Hpost; [|done].
        apply post_on_update_time in Hpost. congruence. }
      by apply (IH _ _ _ t0).
Qed.

Lemma createThread_accepted now ip b s :
  accepted (Some (createThread now ip b s).2) = true →
  ∃ m id th,
    (createThread now ip b s).2 =
      json (ThreadCreated m id (ThreadForm.board b)) ∧
    rows (threads s) !! id = None ∧
    stored (threads (createThread now ip b s).1) (id, th) ∧
    Thread.reply_count th = 0 ∧
    Thread.bump_time th = now ∧ Thread.created_at th = now.
Proof.
  unfold createThread. destruct (text_rejected 5 _) as [[|]|];
    [done| |done].
  destruct (board_by_code _ s) as [bd|]; [|done].
  intros _. eexists _, _, _. simpl. split; [reflexivity|].
  split; [apply new_rowid_fresh|]. unfold stored. simpl.
  rewrite lookup_insert_eq. done.
Qed.

(** C2. Whatever happens to the store (a restart or any request), a
    thread's row changes only when a post creation aimed at it is
    accepted; then [reply_count] grows by exactly one and [bump_time]
    becomes the time of that update.  Deleting a post leaves the
    threads table as it is.  Hence over any run [reply_count] grows by
    the number of accepted post creations on the thread, starting from
    0 for a thread that was just created, and with a clock that does
    not run backwards [bump_time] never decreases. *)
Theorem bump_only_on_accepted_post :
  (∀ s k th e, stored (threads s) (k, th) →
     ∃ th', stored (threads (step e s).1) (k, th') ∧
       match post_on k e with
       | Some now =>
           if accepted (step e s).2
           then Thread.reply_count th' = Thread.reply_count th + 1 ∧
                Thread.bump_time th' = now
           else th' = th
       | None => th' = th
       end) ∧
  (∀ b s, threads (deletePost b s).1 = threads s) ∧
  (∀ s k th es, stored (threads s) (k, th) →
     ∃ th', stored (threads (run es s).1) (k, th') ∧
       Thread.reply_count th' =
         Thread.reply_count th + accepted_posts k es (run es s).2) ∧
  (∀ now ip b s es, accepted (Some (createThread now ip b s).2) = true →
     ∃ m id th',
       (createThread now ip b s).2 =
         json (ThreadCreated m id (ThreadForm.board b)) ∧
       stored (threads (run es (createThread now ip b s).1).1) (id, th') ∧
       Thread.reply_count th' =
         0 + accepted_posts id es (run es (createThread now ip b s).1).2) ∧
  (∀ s k th t0 es, stored (threads s) (k, th) →
     Thread.bump_time th ≤ t0 → clock_forward t0 es →
     ∃ th', stored (threads (run es s).1) (k, th') ∧
       Thread.bump_time th ≤ Thread.bump_time th').
Proof.
  split; [|split; [|split; [|split]]].
  - intros s k th e Hk.
    destruct (step_thread e s k th Hk) as (th' & Hk' & Hstep).
    exists th'. split; [done|].
    destruct (post_on k e) as [now|]; [|done].
    destruct (accepted (step e s).2); [|done]. by subst.
  - apply deletePost_threads.
  - intros s k th es. apply run_reply_count.
  - intros now ip b s es Hok.
    destruct (createThread_accepted now ip b s Hok)
      as (m & id & th & Hres & _ & Hid & Hzero & _).
    destruct (run_reply_count es _ _ _ Hid) as (th' & Hid' & Hcount).
    exists m, id, th'. split; [done|]. split; [done|]. by rewrite <- Hzero.
  - intros s k th t0 es. apply run_bump_time.
Qed.

(** ** Posting to a locked thread *)

(** C3, as the code has it.  A post creation aimed at a locked thread
    changes nothing in the store: no post row is inserted and the
    thread keeps its [reply_count] and [bump_time].  The text is
    checked before the thread is looked up, so the answer is the
    locked-thread error when the text passes that check and the
    missing-text error when it does not; a text that is truthy and not
    a string makes the check throw, which is answered with status
    500. *)
Theorem createPost_locked t1 t2 ip b s k th :
  stored (threads s) (k, th) →
  Thread.is_locked th ≠ 0 →
  PostForm.thread_id b = Some k →
  (createPost t1 t2 ip b s).1 = s ∧
  (text_rejected 1 (PostForm.text b) = Some false →
     (createPost t1 t2 ip b s).2 = thread_locked) ∧
  (text_rejected 1 (PostForm.text b) = Some true →
     (createPost t1 t2 ip b s).2 = post_text_missing) ∧
  (text_rejected 1 (PostForm.text b) = None →
     (createPost t1 t2 ip b s).2 = post_failed).
Proof.
  intros Hk Hlock Hid. unfold createPost.
  destruct (text_rejected 1 _) as [[|]|].
  { split; [reflexivity|]. split; [discriminate|].
    split; [reflexivity|discriminate]. }
  2:{ split; [reflexivity|]. split; [discriminate|].
      split; [discriminate|reflexivity]. }
  assert (get_row (PostForm.thread_id b) (threads s) = Some (k, th)) as ->
    by by apply get_row_Some.
  cbn [snd]. destruct (Z.eqb_spec (Thread.is_locked th) 0) as [Hz|_].
  { by destruct Hlock. }
  split; [reflexivity|]. split; [reflexivity|]. split; discriminate.
Qed.

(** ** Deleting posts *)

Lemma delete_lookup_Some b s r :
  first_row
    (where_ (λ r, sql_eq_int r.1 (DeleteForm.post_id b)
                  && sql_eq_text (Post.password r.2) (DeleteForm.password b))
       (scan (posts s))) = Some r →
  stored (posts s) r ∧ DeleteForm.post_id b = Some r.1 ∧
  Post.password r.2 = sql_text (DeleteForm.password b) ∧
  Post.password r.2 ≠ None.
Proof.
  intros [Hr Hp]%first_row_Some. apply andb_true_iff in Hp as [Hid Hpw].
  split; [done|]. unfold sql_eq_int, sql_eq_text in *.
  destruct (DeleteForm.post_id b) as [k|]; [|done].
  apply bool_decide_eq_true in Hid as <-.
  destruct (Post.password r.2) as [pw|]; [|done].
  destruct (sql_text _) as [pw'|]; [|done].
  apply bool_decide_eq_true in Hpw as <-. done.
Qed.

Lemma delete_lookup_None b s :
  (∀ r, stored (posts s) r → DeleteForm.post_id b = Some r.1 →
        Post.password r.2 = sql_text (DeleteForm.password b) →
        Post.password r.2 = None) →
  first_row
    (where_ (λ r, sql_eq_int r.1 (DeleteForm.post_id b)
                  && sql_eq_text (Post.password r.2) (DeleteForm.password b))
       (scan (posts s))) = None.
Proof.
  intros Hno. apply first_row_None. intros r Hr.
  apply not_true_is_false. intros [Hid Hpw]%andb_true_iff.
  unfold sql_eq_int, sql_eq_text in *.
  destruct (DeleteForm.post_id b) as [k|] eqn:Hk; [|done].
  apply bool_decide_eq_true in Hid as <-.
  destruct (Post.password r.2) as [pw|] eqn:Hp; [|done].
  destruct (sql_text _) as [pw'|] eqn:Hp'; [|done].
  apply bool_decide_eq_true in Hpw as <-.
  specialize (Hno r Hr). rewrite Hp in Hno. by specialize (Hno eq_refl eq_refl).
Qed.

Lemma stored_inj {A} (t : table A) k (a a' : A) :
  stored t (k, a) → stored t (k, a') → a = a'.
Proof. unfold stored. simpl. congruence. Qed.

(** C4. A deletion that names a stored post and supplies a truthy
    password that the driver binds as a text other than the stored one
    (a string is bound in UTF-8, where a surrogate without its partner
    is U+FFFD) changes nothing in the store, so the post stays; and its
    answer is the very answer given to any deletion with a truthy
    password that names no stored post. *)
Theorem deletePost_wrong_password b s k p :
  DeleteForm.post_id b = Some k →
  stored (posts s) (k, p) →
  truthy (DeleteForm.password b) = true →
  Post.password p ≠ sql_text (DeleteForm.password b) →
  (deletePost b s).1 = s ∧
  stored (posts (deletePost b s).1) (k, p) ∧
  (deletePost b s).2 = unauthorized ∧
  ∀ b' s', truthy (DeleteForm.password b') = true →
           get_row (DeleteForm.post_id b') (posts s') = None →
           (deletePost b' s').2 = (deletePost b s).2.
Proof.
  intros Hid Hk Hpw Hne.
  assert (deletePost b s = (s, unauthorized)) as Hdel.
  { unfold deletePost. rewrite Hpw. cbn [negb].
    rewrite delete_lookup_None; [reflexivity|].
    intros [k' p'] Hr Hid' Hp'. simpl in *.
    assert (k' = k) as -> by congruence.
    rewrite (stored_inj _ _ _ _ Hr Hk) in Hp'. by destruct Hne. }
  rewrite Hdel. cbn [fst snd].
  split; [reflexivity|]. split; [exact Hk|]. split; [reflexivity|].
  intros b' s' Hpw' Hnone. unfold deletePost. rewrite Hpw'. cbn [negb].
  rewrite delete_lookup_None; [reflexivity|].
  intros r Hr Hid' _. exfalso.
  assert (get_row (DeleteForm.post_id b') (posts s') = Some r) as Hsome
    by by apply get_row_Some.
  congruence.
Qed.

Lemma deletePost_keeps_null b s k p :
  stored (posts s) (k, p) → Post.password p = None →
  stored (posts (deletePost b s).1) (k, p).
Proof.
  intros Hk Hnull. unfold deletePost. destruct (negb _); [exact Hk|].
  destruct (first_row _) as [r|] eqn:Hrow; [|exact Hk].
  apply delete_lookup_Some in Hrow as (Hr & Hid & _ & Hpw).
  cbn [fst]. rewrite Hid. unfold stored. simpl.
  destruct (decide (r.1 = k)) as [Heq|Hne].
  - destruct r as [k' p']. simpl in *. subst k'.
    rewrite (stored_inj _ _ _ _ Hr Hk) in Hpw. by destruct Hpw.
  - by rewrite lookup_delete_ne.
Qed.

Lemma createPost_keeps t1 t2 ip b s r :
  stored (posts s) r → stored (posts (createPost t1 t2 ip b s).1) r.
Proof.
  intros Hr. unfold createPost. destruct (text_rejected 1 _) as [[|]|];
    [exact Hr| |exact Hr].
  destruct (get_row _ _) as [th|]; [|exact Hr].
  destruct (negb _); [exact Hr|]. cbn [fst posts].
  by apply insert_row_keeps.
Qed.

Lemma createThread_posts now ip b s :
  posts (createThread now ip b s).1 = posts s.
Proof.
  unfold createThread. destruct (text_rejected 5 _) as [[|]|];
    [done| |done].
  by destruct (board_by_code _ s).
Qed.

Lemma step_keeps_null e s k p :
  stored (posts s) (k, p) → Post.password p = None →
  stored (posts (step e s).1) (k, p).
Proof.
  intros Hk Hnull. destruct e as [order clock|r]; [exact Hk|].
  destruct r as [|code|id|now ip b|t1 t2 ip b|b]; cbn [step handle];
    try exact Hk.
  - pose proof (createThread_posts now ip b s) as Hp.
    destruct (createThread now ip b s) as [s' res]. cbn [fst] in *.
    by rewrite Hp.
  - pose proof (createPost_keeps t1 t2 ip b s _ Hk) as Hp.
    by destruct (createPost t1 t2 ip b s) as [s' res].
  - pose proof (deletePost_keeps_null b s k p Hk Hnull) as Hp.
    by destruct (deletePost b s) as [s' res].
Qed.

Lemma run_keeps_null es : ∀ s k p,
  stored (posts s) (k, p) → Post.password p = None →
  stored (posts (run es s).1) (k, p).
Proof.
  induction es as [|e es IH]; intros s k p Hk Hnull; [exact Hk|].
  rewrite run_cons. cbn [fst]. apply IH; [|exact Hnull].
  by apply step_keeps_null.
Qed.

Lemma createPost_accepted t1 t2 ip b s :
  accepted (Some (createPost t1 t2 ip b s).2) = true →
  ∃ m id p,
    (createPost t1 t2 ip b s).2 = json (PostCreated m id) ∧
    rows (posts s) !! id = None ∧
    stored (posts (createPost t1 t2 ip b s).1) (id, p) ∧
    Post.password p = sql_text (js_or (PostForm.password b) JNull) ∧
    Post.thread_id p = PostForm.thread_id b.
Proof.
  unfold createPost. destruct (text_rejected 1 _) as [[|]|];
    [done| |done].
  destruct (get_row _ _) as [th|]; [|done].
  destruct (negb _); [done|].
  intros _. eexists _, _, _. cbn [fst snd posts]. split; [reflexivity|].
  split; [apply new_rowid_fresh|]. unfold stored. simpl.
  rewrite lookup_insert_eq. done.
Qed.

(** C10. A post created without a password (the field missing, [null]
    or empty) is stored with a NULL password.  Such a post survives
    every deletion request: a request that names it is refused, either
    for the missing password or because the lookup by id and password
    finds nothing, and leaves the store as it is; a request that names
    another post does not touch it.  So it is still there after any
    run of the server. *)
Theorem passwordless_post_stays :
  (∀ t1 t2 ip f s,
     truthy (PostForm.password f) = false →
     accepted (Some (createPost t1 t2 ip f s).2) = true →
     ∃ m id p,
       (createPost t1 t2 ip f s).2 = json (PostCreated m id) ∧
       stored (posts (createPost t1 t2 ip f s).1) (id, p) ∧
       Post.password p = None) ∧
  (∀ b s k p,
     stored (posts s) (k, p) → Post.password p = None →
     stored (posts (deletePost b s).1) (k, p) ∧
     (DeleteForm.post_id b = Some k →
        (deletePost b s).1 = s ∧
        (if truthy (DeleteForm.password b)
         then (deletePost b s).2 = unauthorized
         else (deletePost b s).2 = password_missing))) ∧
  (∀ es s k p,
     stored (posts s) (k, p) → Post.password p = None →
     stored (posts (run es s).1) (k, p)).
Proof.
  split; [|split].
  - intros t1 t2 ip f s Hpw Hok.
    destruct (createPost_accepted _ _ _ _ _ Hok)
      as (m & id & p & Hres & _ & Hid & Hp & _).
    exists m, id, p. split; [done|]. split; [done|].
    rewrite Hp. unfold js_or. by rewrite Hpw.
  - intros b s k p Hk Hnull. split; [by apply deletePost_keeps_null|].
    intros Hid. unfold deletePost.
    destruct (truthy (DeleteForm.password b)); cbn [negb]; [|done].
    rewrite delete_lookup_None; [done|].
    intros [k' p'] Hr Hid' _. simpl in *.
    assert (k' = k) as -> by congruence.
    by rewrite (stored_inj _ _ _ _ Hr Hk).
  - intros es. apply run_keeps_null.
Qed.

(** ** Creating threads *)

Lemma text_rejected_false min v :
  text_rejected min v = Some false ↔
  ∃ t, v = JStr t ∧ truthy v = true ∧ (min ≤ length (trim t))%nat.
Proof.
  unfold text_rejected. split.
  - destruct v as [| |t|tr o]; cbn [truthy negb]; try done.
    + destruct t as [|c t]; cbn [negb]; [done|]. intros [= Hlen].
      apply Nat.ltb_ge in Hlen. by exists (c :: t).
    + by destruct tr.
  - intros (t & -> & Ht & Hlen). rewrite Ht. cbn [negb]. f_equal.
    by apply Nat.ltb_ge.
Qed.

Lemma text_rejected_true min v :
  text_rejected min v = Some true ↔
  truthy v = false ∨ ∃ t, v = JStr t ∧ (length (trim t) < min)%nat.
Proof.
  unfold text_rejected. split.
  - destruct (truthy v) eqn:Hv; cbn [negb]; [|by left].
    destruct v as [| |t|tr o]; try done. intros [= Hlen].
    apply Nat.ltb_lt in Hlen. right. by exists t.
  - intros [->|(t & -> & Hlen)]; [done|].
    destruct (truthy (JStr t)); cbn [negb]; [|done]. f_equal.
    by apply Nat.ltb_lt.
Qed.

Lemma text_rejected_None min v :
  text_rejected min v = None ↔ ∃ o, v = JOther true o.
Proof.
  unfold text_rejected. split.
  - destruct v as [| |t|tr o]; cbn [truthy negb]; try done.
    + by destruct t.
    + destruct tr; [|done]. intros _. by exists o.
  - by intros (o & ->).
Qed.

Lemma trim_start_length s : (length (trim_start s) ≤ length s)%nat.
Proof.
  induction s as [|c s IH]; simpl; [lia|]. destruct (is_space c); simpl; lia.
Qed.

Lemma trim_length s : (length (trim s) ≤ length s)%nat.
Proof.
  unfold trim. rewrite length_rev.
  etrans; [apply trim_start_length|]. rewrite length_rev.
  apply trim_start_length.
Qed.

Lemma text_accepted min t :
  (0 < min)%nat → (min ≤ length (trim t))%nat →
  text_rejected min (JStr t) = Some false.
Proof.
  intros Hmin Hlen. apply text_rejected_false. exists t.
  split; [done|]. split; [|done].
  pose proof (trim_length t). destruct t; simpl in *; [lia|done].
Qed.

(** C5, as the code has it.  The text of a new thread must be a string
    that holds at least 5 UTF-16 code units once surrounding white
    space is trimmed.  With such a text and an existing board the
    thread is created, its text stored trimmed, in the form UTF-8 keeps
    of it, and its [reply_count] at 0.  A falsy text (missing, [null],
    empty) or a string shorter than 5 after trimming is refused with
    status 400; a text that is truthy and not a string makes the check
    throw and is answered with status 500; in both cases the store is
    unchanged.  The text "hello world" is long enough. *)
Theorem createThread_text_validation now ip b s :
  (∀ t, ThreadForm.text b = JStr t → (5 ≤ length (trim t))%nat →
        is_Some (board_by_code (ThreadForm.board b) s) →
        ∃ m id th,
          (createThread now ip b s).2 =
            json (ThreadCreated m id (ThreadForm.board b)) ∧
          stored (threads (createThread now ip b s).1) (id, th) ∧
          Thread.text th = stored_text (trim t) ∧
          Thread.reply_count th = 0) ∧
  (truthy (ThreadForm.text b) = false ∨
   (∃ t, ThreadForm.text b = JStr t ∧ (length (trim t) < 5)%nat) →
     createThread now ip b s = (s, text_too_short)) ∧
  ((∃ o, ThreadForm.text b = JOther true o) →
     createThread now ip b s = (s, thread_failed)) ∧
  (ThreadForm.text b = JStr (js "hello world") →
     is_Some (board_by_code (ThreadForm.board b) s) →
     accepted (Some (createThread now ip b s).2) = true).
Proof.
  assert (∀ t, ThreadForm.text b = JStr t → (5 ≤ length (trim t))%nat →
               is_Some (board_by_code (ThreadForm.board b) s) →
               ∃ m id th,
                 (createThread now ip b s).2 =
                   json (ThreadCreated m id (ThreadForm.board b)) ∧
                 stored (threads (createThread now ip b s).1) (id, th) ∧
                 Thread.text th = stored_text (trim t) ∧
                 Thread.reply_count th = 0) as Hok.
  { intros t Ht Hlen [bd Hbd]. unfold createThread.
    rewrite Ht, text_accepted by (done || lia). rewrite Hbd.
    eexists _, _, _. cbn [fst snd threads]. split; [reflexivity|].
    unfold stored. simpl. rewrite lookup_insert_eq. done. }
  split; [exact Hok|]. split; [|split].
  - intros Hshort%(text_rejected_true 5). unfold createThread.
    by rewrite Hshort.
  - intros Hthrow%(text_rejected_None 5). unfold createThread.
    by rewrite Hthrow.
  - intros Ht Hbd.
    destruct (Hok (js "hello world") Ht) as (m & id & th & -> & _);
      [vm_compute; lia|done|done].
Qed.

(** C6, as the code has it.  A thread creation that names a board code
    no board has inserts nothing: the store is unchanged.  Its answer
    is never the not-found result: it is the invalid-board error, with
    status 400, when the text passes validation, the text error, with
    status 400, when the text is refused, and the answer with status
    500 when the text check throws. *)
Theorem createThread_unknown_board now ip b s :
  board_by_code (ThreadForm.board b) s = None →
  (createThread now ip b s).1 = s ∧
  ¬ not_found (createThread now ip b s).2 ∧
  (text_rejected 5 (ThreadForm.text b) = Some false →
     (createThread now ip b s).2 = invalid_board) ∧
  (text_rejected 5 (ThreadForm.text b) = Some true →
     (createThread now ip b s).2 = text_too_short) ∧
  (text_rejected 5 (ThreadForm.text b) = None →
     (createThread now ip b s).2 = thread_failed).
Proof.
  intros Hb. unfold createThread. rewrite Hb.
  destruct (text_rejected 5 _) as [[|]|]; cbn [fst snd].
  - split; [reflexivity|]. split; [discriminate|].
    split; [discriminate|]. split; [reflexivity|discriminate].
  - split; [reflexivity|]. split; [discriminate|].
    split; [reflexivity|]. split; discriminate.
  - split; [reflexivity|]. split; [discriminate|].
    split; [discriminate|]. split; [discriminate|reflexivity].
Qed.

(** C8. A thread that was just created is stored under the id the
    answer carries, a rowid no thread had before, and its [bump_time]
    equals its [created_at]: both are the time of the INSERT. *)
Theorem createThread_bump_is_created now ip b s :
  accepted (Some (createThread now ip b s).2) = true →
  ∃ m id th,
    (createThread now ip b s).2 =
      json (ThreadCreated m id (ThreadForm.board b)) ∧
    rows (threads s) !! id = None ∧
    stored (threads (createThread now ip b s).1) (id, th) ∧
    Thread.bump_time th = Thread.created_at th.
Proof.
  intros Hok.
  destruct (createThread_accepted now ip b s Hok)
    as (m & id & th & Hres & Hfresh & Hid & _ & Hbump & Hcreated).
  exists m, id, th. repeat split; try done. congruence.
Qed.

(** ** Thread view *)

Lemma post_filter k s r :
  r ∈ where_ (λ r, sql_eq_ref (Post.thread_id r.2) (Some k)) (scan (posts s))
  ↔ post_of k s r.
Proof. rewrite elem_of_where, sql_eq_ref_true. done. Qed.

Lemma NoDup_incl_length {A} (l k : list A) :
  NoDup l → (∀ x, x ∈ l → x ∈ k) → (length l ≤ length k)%nat.
Proof. intros Hnd Hin. by apply submseteq_length, NoDup_submseteq. Qed.

(** C9. For a thread that exists, [getThread] shows at most 100 of its
    posts, each once, by [created_at] ascending; every post of the
    thread it leaves out was created no earlier than every post it
    shows, and with fewer than 100 shown none is left out.  A thread
    with more than 100 posts has exactly 100 shown, so some of its
    posts are missing from the view. *)
Theorem getThread_posts id s thread :
  get_row id (threads s) = Some thread →
  ∃ shown board,
    getThread id s = json (ThreadPage thread shown board) ∧
    (length shown ≤ 100)%nat ∧
    (∀ r, r ∈ shown → post_of thread.1 s r) ∧
    NoDup shown ∧
    StronglySorted (asc Post.created_at) shown ∧
    (∀ r r', post_of thread.1 s r → r ∉ shown → r' ∈ shown →
             Post.created_at r'.2 ≤ Post.created_at r.2) ∧
    ((length shown < 100)%nat → ∀ r, post_of thread.1 s r → r ∈ shown) ∧
    (∀ l, NoDup l → (∀ r, r ∈ l → post_of thread.1 s r) →
          (100 < length l)%nat →
          length shown = 100%nat ∧ ¬ (∀ r, r ∈ l → r ∈ shown)).
Proof.
  intros Hth. unfold getThread. rewrite Hth.
  set (P := λ r : Z * Post.t, sql_eq_ref (Post.thread_id r.2) (Some thread.1)).
  eexists _, _. split; [reflexivity|].
  assert (length (limit 100 (order_by (asc Post.created_at)
                               (where_ P (scan (posts s))))) ≤ 100)%nat
    as Hlen by apply limit_length.
  split; [exact Hlen|].
  split; [|split; [|split; [|split; [|split]]]].
  - intros r Hr. apply post_filter. fold P.
    eapply elem_of_order_by. eapply elem_of_sublist; [exact Hr|].
    apply limit_sublist.
  - eapply sublist_NoDup; [|apply limit_sublist].
    apply NoDup_order_by, NoDup_where.
  - apply limit_order_by_sorted; apply _.
  - intros r r' Hr Hout Hin. apply post_filter in Hr. fold P in Hr.
    apply (limit_order_by_cut (asc Post.created_at) 100
             (where_ P (scan (posts s))) r r'); try done.
    apply NoDup_where.
  - intros Hlt r Hr. apply post_filter in Hr. fold P in Hr.
    by apply limit_all.
  - intros l Hnd Hl Hmany.
    assert (length l ≤ length (order_by (asc Post.created_at)
                                 (where_ P (scan (posts s)))))%nat as Hall.
    { apply NoDup_incl_length; [done|]. intros r Hr.
      apply elem_of_order_by, post_filter. by apply Hl. }
    split.
    + unfold limit in *. rewrite length_take in *. lia.
    + intros Hin. pose proof (NoDup_incl_length _ _ Hnd Hin). lia.
Qed.

(** ** Seeding *)

Lemma code_filter t c r :
  r ∈ where_ (λ r, bool_decide (Board.code r.2 = c)) (scan t)
  ↔ stored t r ∧ Board.code r.2 = c.
Proof. by rewrite elem_of_where, bool_decide_eq_true. Qed.

Lemma insert_or_ignore_present now c n d t :
  has_code t c → rows (insert_or_ignore now (c, n, d) t) = rows t.
Proof.
  intros (r & Hr). apply code_filter in Hr. unfold insert_or_ignore.
  destruct (where_ _ _) as [|r' l]; [|done]. by apply elem_of_nil in Hr.
Qed.

Lemma insert_or_ignore_keeps now b t r :
  stored t r → stored (insert_or_ignore now b t) r.
Proof.
  intros Hr. destruct b as [[c n] d]. unfold insert_or_ignore.
  destruct (where_ _ _) as [|r' l]; [|done].
  unfold stored in *. simpl. rewrite lookup_insert_ne; [done|].
  intros Heq. rewrite <- Heq, new_rowid_fresh in Hr. done.
Qed.

Lemma insert_or_ignore_mono now b t c :
  has_code t c → has_code (insert_or_ignore now b t) c.
Proof.
  intros (r & Hr & Hc). exists r. split; [|done].
  by apply insert_or_ignore_keeps.
Qed.

Lemma insert_or_ignore_has now c n d t :
  has_code (insert_or_ignore now (c, n, d) t) c.
Proof.
  unfold insert_or_ignore.
  destruct (where_ _ _) as [|r l] eqn:Hw.
  - exists (new_rowid t, Board.Row c n (Some d) now). split; [|done].
    unfold stored. simpl. by rewrite lookup_insert_eq.
  - assert (r ∈ where_ (λ r, bool_decide (Board.code r.2 = c)) (scan t))
      as Hin by (rewrite Hw; left).
    apply code_filter in Hin. by exists r.
Qed.

Lemma seed_one_keeps clock i t r :
  stored t r → stored (seed_one clock i t) r.
Proof.
  intros Hr. unfold seed_one. destruct (seed_boards !! i); [|done].
  by apply insert_or_ignore_keeps.
Qed.

Lemma seed_one_mono clock i t c :
  has_code t c → has_code (seed_one clock i t) c.
Proof.
  intros (r & Hr & Hc). exists r. split; [|done]. by apply seed_one_keeps.
Qed.

Lemma seed_one_has clock i t b :
  seed_boards !! i = Some b → has_code (seed_one clock i t) b.1.1.
Proof.
  intros Hi. unfold seed_one. rewrite Hi. destruct b as [[c n] d].
  apply insert_or_ignore_has.
Qed.

Lemma seed_one_present clock i t :
  (∀ b, b ∈ seed_boards → has_code t b.1.1) →
  rows (seed_one clock i t) = rows t.
Proof.
  intros Hall. unfold seed_one.
  destruct (seed_boards !! i) as [[[c n] d]|] eqn:Hi; [|done].
  apply insert_or_ignore_present. apply (Hall (c, n, d)).
  apply list_elem_of_lookup. by exists i.
Qed.

Lemma seed_in_keeps clock order : ∀ t r,
  stored t r → stored (seed_in order clock t) r.
Proof.
  induction order as [|i order IH]; intros t r Hr; [done|].
  cbn [seed_in]. by apply IH, seed_one_keeps.
Qed.

Lemma seed_in_mono clock order : ∀ t c,
  has_code t c → has_code (seed_in order clock t) c.
Proof.
  intros t c (r & Hr & Hc). exists r. split; [|done].
  by apply seed_in_keeps.
Qed.

Lemma seed_in_has clock order : ∀ t i b,
  i ∈ order → seed_boards !! i = Some b →
  has_code (seed_in order clock t) b.1.1.
Proof.
  induction order as [|j order IH]; intros t i b Hi Hb;
    [by apply elem_of_nil in Hi|].
  cbn [seed_in]. apply elem_of_cons in Hi as [->|Hi]; [|by apply (IH _ i)].
  by apply seed_in_mono, seed_one_has.
Qed.

Lemma seed_in_present clock order : ∀ t,
  (∀ b, b ∈ seed_boards → has_code t b.1.1) →
  rows (seed_in order clock t) = rows t.
Proof.
  induction order as [|i order IH]; intros t Hall; [done|]. cbn [seed_in].
  rewrite IH; [by apply seed_one_present|].
  intros b Hb. by apply seed_one_mono, Hall.
Qed.

Lemma listBoards_rows s s' :
  rows (boards s) = rows (boards s') → listBoards s = listBoards s'.
Proof. intros Hrows. unfold listBoards, scan. by rewrite Hrows. Qed.

Lemma all_seeded_rows s s' :
  rows (boards s') = rows (boards s) → all_seeded s → all_seeded s'.
Proof.
  intros Hrows Hall b Hb. destruct (Hall b Hb) as (r & Hr & Hc).
  exists r. split; [|done]. unfold stored in *. by rewrite Hrows.
Qed.

Lemma whole_seed_lookup order b :
  whole_seed order → b ∈ seed_boards →
  ∃ i, i ∈ order ∧ seed_boards !! i = Some b.
Proof.
  intros Hwhole (i & Hi)%list_elem_of_lookup. exists i. split; [|done].
  unfold whole_seed in Hwhole. rewrite Hwhole. apply elem_of_seq.
  apply lookup_lt_Some in Hi. lia.
Qed.

Lemma initDatabase_all_seeded order clock s :
  whole_seed order → all_seeded (initDatabase order clock s).
Proof.
  intros Hwhole b Hb.
  destruct (whole_seed_lookup order b Hwhole Hb) as (i & Hi & Hlook).
  by apply (seed_in_has clock order (boards s) i).
Qed.

Lemma initDatabase_again order clock s :
  all_seeded s →
  rows (boards (initDatabase order clock s)) = rows (boards s).
Proof. intros Hall. by apply seed_in_present. Qed.


Lemma handle_boards r s : boards (handle r s).1 = boards s.
Proof.
  destruct r as [|code|id|now ip b|t1 t2 ip b|b]; simpl; try done.
  - unfold createThread. destruct (text_rejected 5 _) as [[|]|];
    [done| |done].
    by destruct (board_by_code _ s).
  - unfold createPost. destruct (text_rejected 1 _) as [[|]|];
    [done| |done].
    destruct (get_row _ _) as [th|]; [|done]. by destruct (negb _).
  - unfold deletePost. destruct (negb _); [done|]. by destruct (first_row _).
Qed.

Lemma step_boards e s :
  all_seeded s → rows (boards (step e s).1) = rows (boards s).
Proof.
  intros Hall. destruct e as [order clock|r]; cbn [step fst].
  - by apply initDatabase_again.
  - pose proof (handle_boards r s) as Hb.
    destruct (handle r s) as [s' res]. cbn [fst] in *. by rewrite Hb.
Qed.

Lemma run_boards es : ∀ s,
  all_seeded s → rows (boards (run es s).1) = rows (boards s).
Proof.
  induction es as [|e es IH]; intros s Hall; [done|].
  rewrite run_cons. cbn [fst].
  pose proof (step_boards e s Hall) as Hstep.
  rewrite IH; [done|]. by apply (all_seeded_rows s).
Qed.

(** A start on a file that has its tables is [initDatabase], in
    whatever order the statements run. *)
Lemma initDatabase_app order order' clock s :
  initDatabase order' clock (initDatabase order clock s) =
    initDatabase (order ++ order') clock s.
Proof.
  unfold initDatabase. cbn [boards threads posts]. f_equal.
  generalize (boards s).
  induction order as [|i order IH]; intros t; [done|].
  cbn [seed_in app]. by apply IH.
Qed.

Lemma start_with_tables clock sched : ∀ f,
  has_table TBoards f = true → has_table TThreads f = true →
  has_table TPosts f = true →
  start sched clock f =
    Some (File (created f)
            (initDatabase (seed_positions sched) clock (content f))).
Proof.
  induction sched as [|st sched IH]; intros f Hb Ht Hp.
  { destruct f as [cr [bs ts ps]]. done. }
  cbn [start]. destruct st as [t|t|i]; cbn [exec].
  - replace (has_table t f) with true by by destruct t.
    by rewrite IH.
  - replace (has_table t f) with true by by destruct t.
    by rewrite IH.
  - rewrite Hb, IH by done. cbn [created content].
    replace (seed_positions (InsertBoard i :: sched))
      with ([i] ++ seed_positions sched) by done.
    by rewrite initDatabase_app.
Qed.

(** C7, at the input where the code fails it.  On a database file that
    was just created, the statements of [initDatabase] in the order of
    the program give the eight boards; but nothing makes the driver
    keep that order, and in the order that runs the first insert before
    the tables are created the start fails with "no such table". *)
Theorem first_start_can_fail clock :
  start init_statements clock new_file =
    Some (File [TPosts; TThreads; TBoards]
            (initDatabase [0; 1; 2; 3; 4; 5; 6; 7]%nat clock empty_db)) ∧
  (InsertBoard <$> List.seq 0 (length seed_boards))
    ++ [ CreateTable TBoards; CreateTable TThreads; CreateTable TPosts;
         CreateIndex TThreads; CreateIndex TPosts; CreateIndex TThreads ]
    ≡ₚ init_statements ∧
  start ((InsertBoard <$> List.seq 0 (length seed_boards))
         ++ [ CreateTable TBoards; CreateTable TThreads; CreateTable TPosts;
              CreateIndex TThreads; CreateIndex TPosts; CreateIndex TThreads ])
    clock new_file = None.
Proof.
  split; [|split].
  - unfold init_statements.
    change (start _ clock new_file)
      with (start (InsertBoard <$> List.seq 0 (length seed_boards)) clock
              (File [TPosts; TThreads; TBoards] empty_db)).
    by rewrite start_with_tables.
  - unfold init_statements. apply Permutation_app_comm.
  - reflexivity.
Qed.

(** ** The statements on sample stores *)

(** C3 as written fails: on a locked thread a post creation with an
    empty text is answered with the missing-text error, not with the
    locked-thread error. *)
Lemma createPost_locked_blank_counterexample :
  stored (threads locked_store) (1, locked_thread) ∧
  Thread.is_locked locked_thread ≠ 0 ∧
  (createPost 1700000600 1700000600 JUndefined
     (post_form 1 (JStr []) JUndefined) locked_store).2 = post_text_missing ∧
  post_text_missing ≠ thread_locked.
Proof.
  split; [vm_compute; reflexivity|].
  split; [vm_compute; discriminate|].
  split; [vm_compute; reflexivity|].
  vm_compute. discriminate.
Qed.

(** C4 as written fails: the third post of [torn_store] was sent with
    a password that ends in a lone surrogate and is stored with U+FFFD
    in its place; a deletion that supplies the password as it was sent,
    a string other than the stored one, deletes the post. *)
Lemma deletePost_torn_password_counterexample :
  ∃ p, stored (posts torn_store) (3, p) ∧
       Post.password p = Some [112; 119; 65533]%N ∧
       truthy (JStr torn_password) = true ∧
       Post.password p ≠ Some torn_password ∧
       (deletePost (DeleteForm.Body (Some 3) (JStr torn_password))
          torn_store).2 = json (PostDeleted (js "Пост удален")) ∧
       rows (posts (deletePost (DeleteForm.Body (Some 3) (JStr torn_password))
                      torn_store).1) !! 3 = None.
Proof.
  eexists. split; [vm_compute; reflexivity|].
  split; [reflexivity|]. split; [reflexivity|].
  split; [vm_compute; discriminate|].
  split; vm_compute; reflexivity.
Qed.

(** C5 as written fails: the non-empty text "abc" on the existing board
    /b/ is refused. *)
Lemma createThread_short_text_counterexample :
  truthy (JStr (js "abc")) = true ∧
  is_Some (board_by_code (JStr (js "b")) seeded) ∧
  createThread 1700000100 JUndefined (thread_form (js "b") (js "abc")) seeded
    = (seeded, text_too_short) ∧
  accepted (Some text_too_short) = false.
Proof.
  split; [reflexivity|].
  split; [exists b_board; vm_compute; reflexivity|].
  split; [|reflexivity].
  unfold createThread.
  replace (text_rejected 5 _) with (Some true) by (vm_compute; reflexivity).
  reflexivity.
Qed.

(** C6 as written fails: for a board code no board has, thread creation
    answers with status 400, while the board page for the same code and
    a post creation on a thread that does not exist answer with 404. *)
Lemma createThread_unknown_board_counterexample :
  board_by_code (JStr (js "zzz")) seeded = None ∧
  status (createThread 1700000100 JUndefined
            (thread_form (js "zzz") (js "hello world")) seeded).2 = 400 ∧
  ¬ not_found (createThread 1700000100 JUndefined
                 (thread_form (js "zzz") (js "hello world")) seeded).2 ∧
  not_found (getBoard (JStr (js "zzz")) seeded) ∧
  not_found (createPost 1700000100 1700000100 JUndefined
               (post_form 7 (JStr (js "hi")) JUndefined) seeded).2.
Proof.
  split; [vm_compute; reflexivity|].
  split; [vm_compute; reflexivity|].
  split; [vm_compute; discriminate|].
  split; vm_compute; reflexivity.
Qed.

(** The board page of /b/ on the store with a pinned thread. *)
Lemma getBoard_listing_witness :
  board_by_code (JStr (js "b")) busy_store = Some b_board ∧
  ∃ stickies plain,
    getBoard (JStr (js "b")) busy_store =
      json (BoardPage b_board (stickies ++ plain)) ∧
    (∀ r, r ∈ stickies ↔ sticky_on 1 busy_store r) ∧
    (length plain ≤ 20)%nat ∧
    StronglySorted (desc Thread.bump_time) plain.
Proof.
  assert (board_by_code (JStr (js "b")) busy_store = Some b_board) as Hb
    by (vm_compute; reflexivity).
  split; [exact Hb|].
  destruct (getBoard_listing (JStr (js "b")) busy_store b_board Hb)
    as (st & pl & Hres & Hst & _ & _ & Hlen & _ & _ & Hsorted & _).
  exists st, pl.
  split; [exact Hres|]. split; [exact Hst|]. split; [exact Hlen|exact Hsorted].
Defined.

(** The first thread of the sample stores: two accepted posts bring its
    [reply_count] from 0 to 2, and one post sets its [bump_time]. *)
Lemma bump_only_on_accepted_post_witness :
  stored (threads one_thread) (1, first_thread) ∧
  (∃ th', stored (threads busy_store) (1, th') ∧
          Thread.reply_count th' = 2) ∧
  (∃ th', stored
            (threads
               (step (Request (CreatePost 1700000400 1700000401 JUndefined
                                 (post_form 1 (JStr (js "hi")) JUndefined)))
                  one_thread).1) (1, th') ∧
          Thread.reply_count th' = 1 ∧ Thread.bump_time th' = 1700000401) ∧
  (∃ th', stored
            (threads
               (run [Request (CreatePost 1700000400 1700000401 JUndefined
                                (post_form 1 (JStr (js "hi")) JUndefined))]
                  one_thread).1) (1, th') ∧
          Thread.bump_time first_thread ≤ Thread.bump_time th') ∧
  (∃ m id th',
     (createThread 1700000100 JUndefined
        (thread_form (js "b") (js "hello world")) seeded).2 =
       json (ThreadCreated m id (JStr (js "b"))) ∧
     stored (threads one_thread) (id, th') ∧ Thread.reply_count th' = 0).
Proof.
  destruct bump_only_on_accepted_post as (Hstep & _ & Hrun & Hnew & Hmono).
  assert (stored (threads one_thread) (1, first_thread)) as H1
    by (vm_compute; reflexivity).
  split; [exact H1|]. split; [|split; [|split]].
  - assert (stored (threads busy_store) (1, bumped_thread)) as H2
      by (vm_compute; reflexivity).
    destruct (Hrun busy_store 1 bumped_thread [] H2) as (th' & Hth' & Hc).
    exists th'. split; [exact Hth'|]. rewrite Hc. reflexivity.
  - destruct (Hstep one_thread 1 first_thread
                (Request (CreatePost 1700000400 1700000401 JUndefined
                            (post_form 1 (JStr (js "hi")) JUndefined))) H1)
      as (th' & Hth' & Hc).
    exists th'. split; [exact Hth'|].
    replace (post_on 1 _) with (Some 1700000401) in Hc by reflexivity.
    replace (accepted _) with true in Hc by (vm_compute; reflexivity).
    exact Hc.
  - apply (Hmono one_thread 1 first_thread 1700000100 _ H1).
    + vm_compute. discriminate.
    + split; [vm_compute; discriminate|exact I].
  - apply (Hnew 1700000100 JUndefined
             (thread_form (js "b") (js "hello world")) seeded []).
    vm_compute. reflexivity.
Defined.

(** A post with a valid text on the locked thread. *)
Lemma createPost_locked_witness :
  stored (threads locked_store) (1, locked_thread) ∧
  (createPost 1700000600 1700000601 JUndefined
     (post_form 1 (JStr (js "hi")) JUndefined) locked_store).1
    = locked_store ∧
  (createPost 1700000600 1700000601 JUndefined
     (post_form 1 (JStr (js "hi")) JUndefined) locked_store).2
    = thread_locked.
Proof.
  assert (stored (threads locked_store) (1, locked_thread)) as Hk
    by (vm_compute; reflexivity).
  assert (Thread.is_locked locked_thread ≠ 0) as Hl
    by (vm_compute; discriminate).
  split; [exact Hk|].
  destruct (createPost_locked 1700000600 1700000601 JUndefined
              (post_form 1 (JStr (js "hi")) JUndefined) locked_store 1
              locked_thread Hk Hl eq_refl) as (Hs & Hgood & _).
  split; [exact Hs|]. apply Hgood. vm_compute. reflexivity.
Defined.

(** A wrong guess at the password of post 2, against the same guess at
    a post that does not exist. *)
Lemma deletePost_wrong_password_witness :
  stored (posts busy_store) (2, secret_post) ∧
  (deletePost (DeleteForm.Body (Some 2) (JStr (js "guess"))) busy_store).1
    = busy_store ∧
  (deletePost (DeleteForm.Body (Some 99) (JStr (js "guess"))) busy_store).2
    = (deletePost (DeleteForm.Body (Some 2) (JStr (js "guess"))) busy_store).2.
Proof.
  assert (stored (posts busy_store) (2, secret_post)) as Hk
    by (vm_compute; reflexivity).
  assert (Post.password secret_post ≠ sql_text (JStr (js "guess"))) as Hne
    by (vm_compute; discriminate).
  split; [exact Hk|].
  destruct (deletePost_wrong_password
              (DeleteForm.Body (Some 2) (JStr (js "guess"))) busy_store 2
              secret_post eq_refl Hk eq_refl Hne) as (Hs & _ & _ & Hsame).
  split; [exact Hs|]. apply Hsame; [reflexivity|].
  vm_compute. reflexivity.
Defined.

(** "hello world" is accepted on /b/; " abc  " trims to three code
    units and is refused; the array with the one element "hello world"
    makes the check throw. *)
Lemma createThread_text_validation_witness :
  (∃ m id th,
     (createThread 1700000100 JUndefined
        (thread_form (js "b") (js "hello world")) seeded).2 =
       json (ThreadCreated m id (JStr (js "b"))) ∧
     stored (threads one_thread) (id, th) ∧
     Thread.text th = stored_text (trim (js "hello world")) ∧
     Thread.reply_count th = 0) ∧
  createThread 1700000100 JUndefined
    (thread_form (js "b") (js " abc  ")) seeded = (seeded, text_too_short) ∧
  createThread 1700000100 JUndefined
    (ThreadForm.Body (JStr (js "b")) JUndefined JUndefined
       (JOther true (Some (js "hello world"))) JUndefined JUndefined) seeded
    = (seeded, thread_failed).
Proof.
  assert (is_Some (board_by_code (JStr (js "b")) seeded)) as Hb
    by (exists b_board; vm_compute; reflexivity).
  split; [|split].
  - destruct (createThread_text_validation 1700000100 JUndefined
                (thread_form (js "b") (js "hello world")) seeded)
      as (Hok & _ & _).
    apply (Hok (js "hello world") eq_refl); [vm_compute; lia|exact Hb].
  - destruct (createThread_text_validation 1700000100 JUndefined
                (thread_form (js "b") (js " abc  ")) seeded)
      as (_ & Hshort & _).
    apply Hshort. right. exists (js " abc  "). split; [reflexivity|].
    vm_compute. lia.
  - destruct (createThread_text_validation 1700000100 JUndefined
                (ThreadForm.Body (JStr (js "b")) JUndefined JUndefined
                   (JOther true (Some (js "hello world"))) JUndefined
                   JUndefined) seeded)
      as (_ & _ & Hthrow & _).
    apply Hthrow. by eexists.
Defined.

(** No board has the code "zzz". *)
Lemma createThread_unknown_board_witness :
  board_by_code (JStr (js "zzz")) seeded = None ∧
  (createThread 1700000100 JUndefined
     (thread_form (js "zzz") (js "hello world")) seeded).1 = seeded ∧
  (createThread 1700000100 JUndefined
     (thread_form (js "zzz") (js "hello world")) seeded).2 = invalid_board.
Proof.
  assert (board_by_code (JStr (js "zzz")) seeded = None) as Hb
    by (vm_compute; reflexivity).
  split; [exact Hb|].
  destruct (createThread_unknown_board 1700000100 JUndefined
              (thread_form (js "zzz") (js "hello world")) seeded Hb)
    as (Hs & _ & Hgood & _).
  split; [exact Hs|]. apply Hgood. vm_compute. reflexivity.
Defined.

(** The thread created on the seeded store. *)
Lemma createThread_bump_is_created_witness :
  accepted (Some (createThread 1700000100 JUndefined
                    (thread_form (js "b") (js "hello world")) seeded).2)
    = true ∧
  ∃ id th, stored (threads one_thread) (id, th) ∧
           Thread.bump_time th = Thread.created_at th.
Proof.
  assert (accepted (Some (createThread 1700000100 JUndefined
                            (thread_form (js "b") (js "hello world"))
                            seeded).2) = true) as Hok
    by (vm_compute; reflexivity).
  split; [exact Hok|].
  destruct (createThread_bump_is_created _ _ _ _ Hok)
    as (m & id & th & _ & _ & Hid & Heq).
  exists id, th. split; [exact Hid|exact Heq].
Defined.

(** The view of the first thread, which has two posts. *)
Lemma getThread_posts_witness :
  get_row (Some 1) (threads busy_store) = Some (1, bumped_thread) ∧
  ∃ shown board,
    getThread (Some 1) busy_store =
      json (ThreadPage (1, bumped_thread) shown board) ∧
    (length shown ≤ 100)%nat ∧
    StronglySorted (asc Post.created_at) shown ∧
    (∀ r, post_of 1 busy_store r → r ∈ shown).
Proof.
  assert (get_row (Some 1) (threads busy_store) = Some (1, bumped_thread))
    as Hth by (vm_compute; reflexivity).
  split; [exact Hth|].
  destruct (getThread_posts (Some 1) busy_store (1, bumped_thread) Hth)
    as (shown & board & Hres & Hlen & _ & _ & Hsorted & _ & Hall & _).
  exists shown, board.
  split; [exact Hres|]. split; [exact Hlen|]. split; [exact Hsorted|].
  apply Hall. clear -Hres. vm_compute in Hres.
  injection Hres as <- _. vm_compute. lia.
Defined.

(** Post 1 of the sample store was created without a password. *)
Lemma passwordless_post_stays_witness :
  stored (posts busy_store) (1, plain_post) ∧
  Post.password plain_post = None ∧
  (∀ pw, stored
           (posts (deletePost (DeleteForm.Body (Some 1) pw) busy_store).1)
           (1, plain_post)) ∧
  (deletePost (DeleteForm.Body (Some 1) (JStr (js "guess"))) busy_store).2
    = unauthorized.
Proof.
  destruct passwordless_post_stays as (_ & Hdel & _).
  assert (stored (posts busy_store) (1, plain_post)) as Hk
    by (vm_compute; reflexivity).
  split; [exact Hk|]. split; [reflexivity|]. split.
  - intros pw.
    apply (Hdel (DeleteForm.Body (Some 1) pw) busy_store 1 plain_post Hk
             eq_refl).
  - destruct (Hdel (DeleteForm.Body (Some 1) (JStr (js "guess"))) busy_store
                1 plain_post Hk eq_refl) as (_ & Hnamed).
    destruct (Hnamed eq_refl) as (_ & Hres). exact Hres.
Defined.

(** ** Further properties of the handlers *)

(** X1. A deletion that names a stored post that has a password and
    supplies that password (a truthy value that the driver binds as the
    stored text) removes that post and nothing else: every other post
    stays, the threads (their [reply_count] too) and the boards are
    untouched.  The same request sent again is refused and changes
    nothing. *)
Theorem deletePost_correct_password b s k p :
  DeleteForm.post_id b = Some k →
  stored (posts s) (k, p) →
  is_Some (Post.password p) →
  truthy (DeleteForm.password b) = true →
  Post.password p = sql_text (DeleteForm.password b) →
  (deletePost b s).2 = json (PostDeleted (js "Пост удален")) ∧
  rows (posts (deletePost b s).1) !! k = None ∧
  (∀ r, r.1 ≠ k →
        (stored (posts (deletePost b s).1) r ↔ stored (posts s) r)) ∧
  threads (deletePost b s).1 = threads s ∧
  boards (deletePost b s).1 = boards s ∧
  deletePost b (deletePost b s).1 = ((deletePost b s).1, unauthorized).
Proof.
  intros Hid Hk [pw Hsome] Hpw Hmatch.
  assert (deletePost b s =
            (Db (boards s) (threads s) (delete_row (Some k) (posts s)),
             json (PostDeleted (js "Пост удален")))) as Hdel.
  { unfold deletePost. rewrite Hpw. cbn [negb].
    destruct (first_row _) as [r|] eqn:Hrow; [by rewrite Hid|].
    exfalso. rewrite first_row_None in Hrow.
    specialize (Hrow (k, p) Hk). cbn [fst snd] in Hrow.
    rewrite Hid, Hsome in Hrow. unfold sql_eq_int, sql_eq_text in Hrow.
    rewrite <- Hmatch, Hsome in Hrow.
    by rewrite !bool_decide_true in Hrow by done. }
  rewrite Hdel. cbn [fst snd posts threads boards delete_row rows].
  split; [reflexivity|]. split; [apply lookup_delete_eq|].
  split; [|split; [reflexivity|split; [reflexivity|]]].
  - intros r Hne. unfold stored. cbn [rows]. by rewrite lookup_delete_ne.
  - unfold deletePost at 1. rewrite Hpw. cbn [negb].
    rewrite delete_lookup_None; [reflexivity|].
    intros r Hr Hid' _. exfalso. unfold stored in Hr. cbn in Hr.
    assert (r.1 = k) as Hrk by congruence.
    rewrite Hrk, lookup_delete_eq in Hr. done.
Qed.

(** The store with post 2 deleted by its password. *)
Lemma deletePost_correct_password_witness :
  stored (posts busy_store) (2, secret_post) ∧
  rows (posts (deletePost (DeleteForm.Body (Some 2) (JStr (js "secret")))
                 busy_store).1) !! 2 = None ∧
  stored (posts (deletePost (DeleteForm.Body (Some 2) (JStr (js "secret")))
                   busy_store).1) (1, plain_post).
Proof.
  assert (stored (posts busy_store) (2, secret_post)) as Hk
    by (vm_compute; reflexivity).
  split; [exact Hk|].
  destruct (deletePost_correct_password
              (DeleteForm.Body (Some 2) (JStr (js "secret"))) busy_store 2
              secret_post eq_refl Hk (mk_is_Some _ _ eq_refl) eq_refl eq_refl)
    as (_ & Hgone & Hrest & _).
  split; [exact Hgone|].
  apply (Hrest (1, plain_post)); [vm_compute; discriminate|].
  vm_compute. reflexivity.
Defined.

Section sequence.
Context {A : Type}.
Implicit Types (t : table A).

Lemma insert_row_seq a t : seq (insert_row a t).1 = new_rowid t.
Proof. reflexivity. Qed.

Lemma insert_row_id a t : (insert_row a t).2 = new_rowid t.
Proof. reflexivity. Qed.

Lemma new_rowid_above t : seq t < new_rowid t.
Proof. unfold new_rowid. lia. Qed.

Lemma insert_row_seq_ok a t : seq_ok (insert_row a t).1.
Proof.
  intros k a' Hk. rewrite insert_row_lookup in Hk. rewrite insert_row_seq.
  case_decide as Heq; [lia|].
  apply max_rowid_ge in Hk. unfold new_rowid. lia.
Qed.

Lemma delete_row_seq_ok id t : seq_ok t → seq_ok (delete_row id t).
Proof.
  intros Hok. destruct id as [k|]; [|done]. intros k' a Hk'. cbn in *.
  apply lookup_delete_Some in Hk' as [_ Hk']. by apply (Hok k' a).
Qed.

Lemma update_row_seq_ok f id t : seq_ok t → seq_ok (update_row f id t).
Proof.
  intros Hok. destruct id as [k|]; [|done]. intros k' a Hk'. cbn in *.
  apply lookup_alter_Some in Hk' as [(_ & a' & Ha & _)|[_ Ha]].
  - by apply (Hok k' a').
  - by apply (Hok k' a).
Qed.
End sequence.

(** The outcomes of the three writing handlers. *)
Lemma createThread_cases now ip b s :
  (∃ c e, c ≠ 200 ∧ createThread now ip b s = (s, error c e)) ∨
  (∃ board,
     text_rejected 5 (ThreadForm.text b) = Some false ∧
     board_by_code (ThreadForm.board b) s = Some board ∧
     createThread now ip b s =
       (Db (boards s)
           (insert_row (thread_row now ip b board.1) (threads s)).1 (posts s),
        json (ThreadCreated (js "Тред создан") (new_rowid (threads s))
                (ThreadForm.board b)))).
Proof.
  unfold createThread. destruct (text_rejected 5 _) as [[|]|];
    [left; by eexists 400, _| |left; by eexists 500, _].
  destruct (board_by_code _ s) as [board|]; [|left; by eexists 400, _].
  right. exists board. done.
Qed.

Lemma createPost_cases t1 t2 ip b s :
  (∃ c e, c ≠ 200 ∧ createPost t1 t2 ip b s = (s, error c e)) ∨
  (∃ thread,
     text_rejected 1 (PostForm.text b) = Some false ∧
     get_row (PostForm.thread_id b) (threads s) = Some thread ∧
     Thread.is_locked thread.2 = 0 ∧
     createPost t1 t2 ip b s =
       (Db (boards s)
           (update_row (bump t2) (PostForm.thread_id b) (threads s))
           (insert_row (post_row t1 ip b) (posts s)).1,
        json (PostCreated (js "Пост добавлен") (new_rowid (posts s))))).
Proof.
  unfold createPost. destruct (text_rejected 1 _) as [[|]|];
    [left; by eexists 400, _| |left; by eexists 500, _].
  destruct (get_row _ _) as [thread|]; [|left; by eexists 404, _].
  destruct (Z.eqb_spec (Thread.is_locked thread.2) 0) as [Hz|Hnz];
    [|left; by eexists 400, _].
  right. exists thread. done.
Qed.

Lemma deletePost_cases b s :
  (∃ c e, c ≠ 200 ∧ deletePost b s = (s, error c e)) ∨
  (∃ r, stored (posts s) r ∧ DeleteForm.post_id b = Some r.1 ∧
        Post.password r.2 = sql_text (DeleteForm.password b) ∧
        deletePost b s =
          (Db (boards s) (threads s) (delete_row (Some r.1) (posts s)),
           json (PostDeleted (js "Пост удален")))).
Proof.
  unfold deletePost. destruct (negb _); [left; by eexists 400, _|].
  destruct (first_row _) as [r|] eqn:Hrow; [|left; by eexists 400, _].
  apply delete_lookup_Some in Hrow as (Hr & Hid & Hpw & _).
  right. exists r. by rewrite Hid.
Qed.

Lemma error_not_accepted c e :
  post_id_of (Some (error c e)) = None ∧
  thread_id_of (Some (error c e)) = None.
Proof. done. Qed.

Lemma step_posts_seq e s :
  seq_ok (posts s) →
  seq_ok (posts (step e s).1) ∧
  seq (posts s) ≤ seq (posts (step e s).1) ∧
  ∀ id, post_id_of (step e s).2 = Some id →
        seq (posts s) < id ∧ id ≤ seq (posts (step e s).1).
Proof.
  intros Hok. destruct e as [order clock|r]; [by repeat split|].
  destruct r as [|code|id|now ip b|t1 t2 ip b|b]; cbn [step handle].
  - by repeat split.
  - unfold getBoard. destruct (board_by_code _ _); by repeat split.
  - unfold getThread. destruct (get_row _ _); by repeat split.
  - destruct (createThread_cases now ip b s) as [(c & e & _ & ->)|(bd & _ & _ & ->)];
      cbn [fst snd posts]; by repeat split.
  - destruct (createPost_cases t1 t2 ip b s) as [(c & e & _ & ->)|(th & _ & _ & _ & ->)];
      cbn [fst snd posts]; [by repeat split|].
    pose proof (new_rowid_above (posts s)).
    split; [apply insert_row_seq_ok|]. rewrite insert_row_seq.
    split; [lia|]. intros id [= <-]. lia.
  - destruct (deletePost_cases b s) as [(c & e & _ & ->)|(r & _ & _ & _ & ->)];
      cbn [fst snd posts]; [by repeat split|].
    split; [by apply delete_row_seq_ok|]. by repeat split.
Qed.

Lemma step_threads_seq e s :
  seq_ok (threads s) →
  seq_ok (threads (step e s).1) ∧
  seq (threads s) ≤ seq (threads (step e s).1) ∧
  ∀ id, thread_id_of (step e s).2 = Some id →
        seq (threads s) < id ∧ id ≤ seq (threads (step e s).1).
Proof.
  intros Hok. destruct e as [order clock|r]; [by repeat split|].
  destruct r as [|code|id|now ip b|t1 t2 ip b|b]; cbn [step handle].
  - by repeat split.
  - unfold getBoard. destruct (board_by_code _ _); by repeat split.
  - unfold getThread. destruct (get_row _ _); by repeat split.
  - destruct (createThread_cases now ip b s) as [(c & e & _ & ->)|(bd & _ & _ & ->)];
      cbn [fst snd threads]; [by repeat split|].
    pose proof (new_rowid_above (threads s)).
    split; [apply insert_row_seq_ok|]. rewrite insert_row_seq.
    split; [lia|]. intros id [= <-]. lia.
  - destruct (createPost_cases t1 t2 ip b s) as [(c & e & _ & ->)|(th & _ & _ & _ & ->)];
      cbn [fst snd threads]; [by repeat split|].
    split; [by apply update_row_seq_ok|].
    split; [by destruct (PostForm.thread_id b)|done].
  - destruct (deletePost_cases b s) as [(c & e & _ & ->)|(r & _ & _ & _ & ->)];
      cbn [fst snd threads]; by repeat split.
Qed.

Lemma run_ids_increase {A} (tbl : db → table A)
    (id_of : option response → option Z) :
  (∀ e s, seq_ok (tbl s) →
     seq_ok (tbl (step e s).1) ∧
     seq (tbl s) ≤ seq (tbl (step e s).1) ∧
     ∀ id, id_of (step e s).2 = Some id →
           seq (tbl s) < id ∧ id ≤ seq (tbl (step e s).1)) →
  ∀ es s, seq_ok (tbl s) →
    StronglySorted Z.lt (omap id_of (run es s).2) ∧
    Forall (λ id, seq (tbl s) < id) (omap id_of (run es s).2).
Proof.
  intros Hstep es. induction es as [|e es IH]; intros s Hok.
  { split; constructor. }
  rewrite run_cons. cbn [snd].
  replace (omap id_of ((step e s).2 :: (run es (step e s).1).2))
    with (match id_of (step e s).2 with
          | Some id => id :: omap id_of (run es (step e s).1).2
          | None => omap id_of (run es (step e s).1).2
          end) by reflexivity.
  destruct (Hstep e s Hok) as (Hok1 & Hle & Hid).
  destruct (IH _ Hok1) as [Hsorted Hall].
  assert (Forall (λ id, seq (tbl s) < id)
            (omap id_of (run es (step e s).1).2)) as Hall'.
  { eapply Forall_impl; [exact Hall|]. cbn. lia. }
  destruct (id_of (step e s).2) as [id|]; [|done].
  destruct (Hid id eq_refl) as [Hlt Hle'].
  split; [|by constructor].
  constructor; [done|]. eapply Forall_impl; [exact Hall|]. cbn. lia.
Qed.

(** X2. Ids are never handed out twice.  On a store whose rowids are
    below the AUTOINCREMENT sequences, the post ids a run answers with
    are strictly increasing and differ from the id of every post that
    was stored before the run, whether or not that post was deleted in
    between; the same holds for thread ids. *)
Theorem ids_never_reused es s :
  seq_ok (posts s) → seq_ok (threads s) →
  StronglySorted Z.lt (omap post_id_of (run es s).2) ∧
  (∀ k p, stored (posts s) (k, p) → k ∉ omap post_id_of (run es s).2) ∧
  StronglySorted Z.lt (omap thread_id_of (run es s).2) ∧
  (∀ k th, stored (threads s) (k, th) →
           k ∉ omap thread_id_of (run es s).2).
Proof.
  intros Hp Ht.
  destruct (run_ids_increase posts post_id_of step_posts_seq es s Hp)
    as [Hps Hpa].
  destruct (run_ids_increase threads thread_id_of step_threads_seq es s Ht)
    as [Hts Hta].
  split; [exact Hps|]. split; [|split; [exact Hts|]].
  - intros k p Hk Hin. rewrite Forall_forall in Hpa.
    specialize (Hpa k Hin). specialize (Hp k p Hk). lia.
  - intros k th Hk Hin. rewrite Forall_forall in Hta.
    specialize (Hta k Hin). specialize (Ht k th Hk). lia.
Qed.

(** Post 2 is deleted, then two posts are made: they get ids 3 and 4. *)
Lemma ids_never_reused_witness :
  seq_ok (posts busy_store) ∧ seq_ok (threads busy_store) ∧
  omap post_id_of
    (run [ Request (DeletePost
                      (DeleteForm.Body (Some 2) (JStr (js "secret"))));
           Request (CreatePost 1700000600 1700000600 JUndefined
                      (post_form 1 (JStr (js "third reply")) JUndefined));
           Request (CreatePost 1700000700 1700000700 JUndefined
                      (post_form 3 (JStr (js "fourth reply")) JUndefined)) ]
       busy_store).2 = [3; 4] ∧
  2 ∉ [3; 4].
Proof.
  assert (seq_ok (posts busy_store)) as Hp
    by (apply (bool_decide_unpack _); vm_compute; exact I).
  assert (seq_ok (threads busy_store)) as Ht
    by (apply (bool_decide_unpack _); vm_compute; exact I).
  split; [exact Hp|]. split; [exact Ht|].
  assert (omap post_id_of
    (run [ Request (DeletePost
                      (DeleteForm.Body (Some 2) (JStr (js "secret"))));
           Request (CreatePost 1700000600 1700000600 JUndefined
                      (post_form 1 (JStr (js "third reply")) JUndefined));
           Request (CreatePost 1700000700 1700000700 JUndefined
                      (post_form 3 (JStr (js "fourth reply")) JUndefined)) ]
       busy_store).2 = [3; 4]) as Hids by (vm_compute; reflexivity).
  split; [exact Hids|]. rewrite <- Hids.
  apply (ids_never_reused _ busy_store Hp Ht) with (p := secret_post).
  vm_compute. reflexivity.
Defined.

(** ** References between the tables *)

Lemma update_row_stored {A} (f : A → A) id (t : table A) k a :
  stored (update_row f id t) (k, a) ↔
  (id = Some k ∧ ∃ a', stored t (k, a') ∧ a = f a') ∨
  (id ≠ Some k ∧ stored t (k, a)).
Proof.
  unfold stored. destruct id as [k'|]; cbn [update_row rows fst snd].
  - rewrite lookup_alter_Some. split.
    + intros [[-> H2]|[H1 H2]]; [left; by split|right].
      split; [|exact H2]. intros [= Heq]. by destruct H1.
    + intros [[[= ->] H2]|[H1 H2]]; [left; by split|right].
      split; [|exact H2]. intros ->. by destruct H1.
  - split; [intros Hk; by right|]. intros [[[=] _]|[_ Hk]]. exact Hk.
Qed.

Lemma update_row_keeps_key {A} (f : A → A) id (t : table A) k a :
  stored t (k, a) → ∃ a', stored (update_row f id t) (k, a') ∧
                          (a' = a ∨ a' = f a).
Proof.
  intros Hk. destruct (decide (id = Some k)) as [->|Hne].
  - exists (f a). split; [|by right]. apply update_row_stored. left.
    split; [done|]. by exists a.
  - exists a. split; [|by left]. apply update_row_stored. by right.
Qed.

Lemma insert_row_stored {A} (a : A) (t : table A) r :
  stored (insert_row a t).1 r ↔
  r = (new_rowid t, a) ∨ (r.1 ≠ new_rowid t ∧ stored t r).
Proof.
  unfold stored. rewrite insert_row_lookup. destruct r as [k a'].
  cbn [fst snd]. case_decide as Hk.
  - subst k. split; [intros [= ->]; by left|].
    intros [[= ->]|[Hne _]]; done.
  - split; [intros Hr; right; done|].
    intros [[= -> _]|[_ Hr]]; done.
Qed.

Lemma delete_row_stored {A} id (t : table A) r :
  stored (delete_row id t) r → stored t r.
Proof.
  unfold stored. destruct id as [k|]; [|done]. cbn [delete_row rows].
  by intros [_ Hr]%lookup_delete_Some.
Qed.

Lemma bump_board now th : Thread.board_id (bump now th) = Thread.board_id th.
Proof. done. Qed.

Lemma board_by_code_Some code s board :
  board_by_code code s = Some board →
  stored (boards s) board ∧ sql_text code = Some (Board.code board.2).
Proof.
  intros [Hb Hc]%first_row_Some. split; [done|].
  unfold sql_eq_text in Hc. cbn beta in Hc.
  destruct (sql_text code) as [c|]; [|done].
  apply bool_decide_eq_true in Hc. by rewrite Hc.
Qed.

Lemma step_ref_ok e s : ref_ok s → ref_ok (step e s).1.
Proof.
  intros [Hposts Hthreads]. destruct e as [order clock|r].
  { split; [exact Hposts|]. intros r Hr.
    destruct (Hthreads r Hr) as (b & bd & Hb & Hbd).
    exists b, bd. split; [done|].
    cbn [step fst initDatabase boards]. by apply seed_in_keeps. }
  destruct r as [|code|id|now ip b|t1 t2 ip b|b]; cbn [step handle fst].
  - split; assumption.
  - split; assumption.
  - split; assumption.
  - destruct (createThread_cases now ip b s)
      as [(c & e & _ & ->)|(board & _ & Hboard & ->)]; [by split|].
    cbn [fst posts threads boards]. split.
    + intros r Hr. destruct (Hposts r Hr) as (k & th & Hk & Hth).
      exists k, th. split; [done|]. by apply insert_row_keeps.
    + intros r [->|[_ Hr]]%insert_row_stored; [|by apply Hthreads].
      apply board_by_code_Some in Hboard as [Hboard _].
      destruct board as [bk bd]. by exists bk, bd.
  - destruct (createPost_cases t1 t2 ip b s)
      as [(c & e & _ & ->)|(thread & _ & Hthread & _ & ->)]; [by split|].
    cbn [fst posts threads boards]. split.
    + intros r [->|[_ Hr]]%insert_row_stored.
      * apply get_row_Some in Hthread as [Hid Hth].
        destruct thread as [k th].
        destruct (update_row_keeps_key (bump t2) (PostForm.thread_id b)
                    (threads s) k th Hth) as (th' & Hth' & _).
        exists k, th'. split; [exact Hid|exact Hth'].
      * destruct (Hposts r Hr) as (k & th & Hk & Hth).
        destruct (update_row_keeps_key (bump t2) (PostForm.thread_id b)
                    (threads s) k th Hth) as (th' & Hth' & _).
        exists k, th'. split; [exact Hk|exact Hth'].
    + intros [k th] [(_ & th0 & Hth0 & ->)|[_ Hth]]%update_row_stored.
      * destruct (Hthreads _ Hth0) as (bk & bd & Hb & Hbd).
        exists bk, bd. split; [exact Hb|exact Hbd].
      * by apply Hthreads.
  - destruct (deletePost_cases b s)
      as [(c & e & _ & ->)|(r & _ & _ & _ & ->)]; [by split|].
    cbn [fst posts threads boards]. split; [|done].
    intros r' Hr'. cbn [posts] in Hr'. apply delete_row_stored in Hr'.
    by apply Hposts.
Qed.

Lemma run_ref_ok es : ∀ s, ref_ok s → ref_ok (run es s).1.
Proof.
  induction es as [|e es IH]; intros s Hok; [done|].
  rewrite run_cons. cbn [fst]. by apply IH, step_ref_ok.
Qed.

Lemma ref_ok_empty : ref_ok empty_db.
Proof. split; intros r Hr; unfold stored in Hr; cbn in Hr; done. Qed.

(** X3. The references between the tables stay valid: if every post
    belongs to a stored thread and every thread to a stored board, this
    is still so after any run of restarts and requests.  It holds on the
    fresh store. *)
Theorem references_stay_valid :
  ref_ok empty_db ∧ ∀ es s, ref_ok s → ref_ok (run es s).1.
Proof. split; [apply ref_ok_empty|]. intros es. apply run_ref_ok. Qed.

(** The store reached from the fresh one by the sample run. *)
Lemma references_stay_valid_witness : ref_ok replayed.
Proof.
  destruct references_stay_valid as [Hempty Hrun].
  apply (Hrun replay empty_db Hempty).
Defined.

Lemma where_nil {A} p (t : table A) :
  (∀ r, stored t r → p r = false) → where_ p (scan t) = [].
Proof.
  intros Hnone. destruct (where_ p (scan t)) as [|r l] eqn:Hw; [done|].
  assert (r ∈ where_ p (scan t)) as Hin by (rewrite Hw; left).
  apply elem_of_where in Hin as [Hr Hp]. rewrite (Hnone r Hr) in Hp. done.
Qed.

Lemma sql_eq_ref_false col k : col ≠ Some k → sql_eq_ref col (Some k) = false.
Proof.
  intros Hne. apply not_true_is_false. by intros ?%sql_eq_ref_true.
Qed.

Lemma get_row_stored {A} (t : table A) r :
  stored t r → get_row (Some r.1) t = Some r.
Proof. intros Hr. by apply get_row_Some. Qed.

(** X4. On a store with valid references the thread view always names
    the thread's own board: the stand-in board with code "unknown" is
    never sent. *)
Theorem getThread_board_known id s thread :
  ref_ok s →
  get_row id (threads s) = Some thread →
  ∃ shown b,
    getThread id s = json (ThreadPage thread shown (BoardRow b)) ∧
    stored (boards s) b ∧
    Thread.board_id thread.2 = Some b.1.
Proof.
  intros [_ Hthreads] Hth. unfold getThread. rewrite Hth.
  apply get_row_Some in Hth as [_ Hth].
  destruct (Hthreads thread Hth) as (bk & bd & Hb & Hbd).
  pose proof (get_row_stored (boards s) (bk, bd) Hbd) as Hg.
  cbn [fst] in Hg. rewrite Hb. cbv beta iota. rewrite Hg.
  by eexists _, (bk, bd).
Qed.

(** The first thread of the replayed store is on /b/. *)
Lemma getThread_board_known_witness :
  ∃ thread shown,
    getThread (Some 1) replayed =
      json (ThreadPage thread shown (BoardRow b_board)).
Proof.
  assert (get_row (Some 1) (threads replayed) = Some (1, bumped_thread))
    as Hth by (vm_compute; reflexivity).
  destruct (getThread_board_known (Some 1) replayed (1, bumped_thread)
              (run_ref_ok replay empty_db ref_ok_empty) Hth)
    as (shown & b & Hres & Hb & Hid).
  exists (1, bumped_thread), shown.
  replace b_board with b; [exact Hres|].
  destruct b as [bk bd]. cbn in Hid. injection Hid as <-.
  vm_compute in Hb. by injection Hb as <-.
Defined.

(** X5. Creating a thread and then viewing it gives back what was
    stored of the request: on a store with valid references, the view
    of the id just handed out holds the row built from the request (the
    text trimmed; text, subject, name, password and image in the form
    the driver binds them, a string as UTF-8 keeps it, with U+FFFD for
    a surrogate without its partner; name "Аноним" when none was given,
    no password when none was given, both timestamps at the time of
    creation, zero replies, neither sticky nor locked), no posts, and
    the board that was named. *)
Theorem createThread_then_getThread now ip b s :
  ref_ok s →
  accepted (Some (createThread now ip b s).2) = true →
  ∃ id board,
    (createThread now ip b s).2 =
      json (ThreadCreated (js "Тред создан") id (ThreadForm.board b)) ∧
    board_by_code (ThreadForm.board b) s = Some board ∧
    getThread (Some id) (createThread now ip b s).1 =
      json (ThreadPage (id, thread_row now ip b board.1) []
              (BoardRow board)).
Proof.
  intros [Hposts _] Hok.
  destruct (createThread_cases now ip b s)
    as [(c & e & Hne & Hc)|(board & _ & Hboard & Hc)]; rewrite Hc in *.
  { cbn in Hok. apply Z.eqb_eq in Hok. by destruct Hne. }
  exists (new_rowid (threads s)), board. cbn [fst snd].
  split; [reflexivity|]. split; [exact Hboard|].
  unfold getThread. cbn [threads posts boards].
  assert (get_row (Some (new_rowid (threads s)))
            (insert_row (thread_row now ip b board.1) (threads s)).1
          = Some (new_rowid (threads s), thread_row now ip b board.1)) as ->.
  { apply get_row_Some. split; [done|]. apply insert_row_stored. by left. }
  cbn [fst snd]. rewrite where_nil.
  - apply board_by_code_Some in Hboard as [Hboard _].
    replace (Thread.board_id (thread_row now ip b board.1))
      with (Some board.1) by reflexivity.
    cbv beta iota. by rewrite (get_row_stored (boards s) board Hboard).
  - intros r Hr. apply sql_eq_ref_false. intros Heq.
    destruct (Hposts r Hr) as (k & th & Hk & Hth).
    assert (k = new_rowid (threads s)) as -> by congruence.
    unfold stored in Hth. cbn in Hth. by rewrite new_rowid_fresh in Hth.
Qed.

(** A second thread on the replayed store, its text ending in a lone
    surrogate. *)
Lemma createThread_then_getThread_witness :
  getThread (Some 2)
    (createThread 1700000600 JUndefined
       (thread_form (js "b") (js "  another thread" ++ [55357; 32]%N))
       replayed).1 =
    json (ThreadPage
            (2, Thread.Row (Some 1) None (Some (js "Аноним"))
                  (js "another thread" ++ [65533]%N) None None
                  (Some (js "unknown")) 1700000600 1700000600 0 0 0)
            [] (BoardRow b_board)).
Proof.
  destruct (createThread_then_getThread 1700000600 JUndefined
              (thread_form (js "b") (js "  another thread" ++ [55357; 32]%N))
              replayed
              (run_ref_ok replay empty_db ref_ok_empty))
    as (id & board & Hres & Hboard & Hview).
  { vm_compute. reflexivity. }
  vm_compute in Hres. injection Hres as <-.
  vm_compute in Hboard. injection Hboard as <-.
  rewrite Hview. vm_compute. reflexivity.
Defined.

(** ** What the server stores *)

Lemma trim_start_head s c :
  head (trim_start s) = Some c → is_space c = false.
Proof.
  induction s as [|c' s IH]; [done|]. cbn [trim_start].
  destruct (is_space c') eqn:Hc'; [exact IH|]. by intros [= <-].
Qed.

Lemma trim_start_last s c :
  last (trim_start s) = Some c → last s = Some c.
Proof.
  induction s as [|c' s IH]; [done|]. cbn [trim_start].
  destruct (is_space c'); [|done]. intros Hl. specialize (IH Hl).
  rewrite last_cons, IH. done.
Qed.

Lemma trim_trimmed s : trimmed (trim s).
Proof.
  unfold trim. rewrite !rev_alt. fold (reverse (trim_start s)).
  fold (reverse (trim_start (reverse (trim_start s)))). split; intros c.
  - rewrite head_reverse. intros Hl%trim_start_last.
    rewrite last_reverse in Hl. by apply trim_start_head in Hl.
  - rewrite last_reverse. apply trim_start_head.
Qed.

Lemma stored_text_length_le n : ∀ s,
  (length s ≤ n)%nat → length (stored_text s) = length s.
Proof.
  induction n as [|n IH]; intros [|c r] Hl; cbn [length] in *;
    try done; try lia.
  cbn [stored_text]. destruct (is_high c).
  - destruct r as [|d r']; [done|]. cbn [length] in Hl.
    destruct (is_low d); cbn [length].
    + rewrite IH by lia. done.
    + f_equal. apply IH. cbn [length]. lia.
  - destruct (is_low c); cbn [length]; f_equal; apply IH; lia.
Qed.

Lemma stored_text_length s : length (stored_text s) = length s.
Proof. by apply (stored_text_length_le (length s)). Qed.

Lemma stored_text_nil s : stored_text s = [] → s = [].
Proof.
  intros Hs. apply nil_length_inv. by rewrite <- stored_text_length, Hs.
Qed.

Lemma stored_text_head s c :
  head (stored_text s) = Some c →
  ∃ c', head s = Some c' ∧ (c = c' ∨ c = 65533%N).
Proof.
  destruct s as [|c0 r]; [done|]. cbn [stored_text head].
  intros Hc. exists c0. split; [done|].
  destruct (is_high c0).
  - destruct r as [|d r']; [injection Hc as <-; by right|].
    destruct (is_low d); injection Hc as <-; [by left|by right].
  - destruct (is_low c0); injection Hc as <-; [by right|by left].
Qed.

Lemma last_cons_Some {A} (x : A) l y : last l = Some y → last (x :: l) = Some y.
Proof. intros Hl. by rewrite last_cons, Hl. Qed.

Lemma stored_text_last_le n : ∀ s c,
  (length s ≤ n)%nat → last (stored_text s) = Some c →
  ∃ c', last s = Some c' ∧ (c = c' ∨ c = 65533%N).
Proof.
  induction n as [|n IH]; intros [|c0 r] c Hl; cbn [length] in *;
    try done; try lia.
  assert (∀ x, (x = c0 ∨ x = 65533%N) →
            last (x :: stored_text r) = Some c →
            ∃ c', last (c0 :: r) = Some c' ∧ (c = c' ∨ c = 65533%N)) as Hone.
  { intros x Hx. rewrite last_cons.
    destruct (last (stored_text r)) as [y|] eqn:Hy.
    - intros [= ->]. destruct (IH r c) as (c' & Hc' & Hor); [lia|done|].
      exists c'. split; [by apply last_cons_Some|done].
    - intros [= ->]. apply last_None, stored_text_nil in Hy as ->.
      exists c0. split; [done|]. destruct Hx as [->| ->]; [by left|by right]. }
  cbn [stored_text]. destruct (is_high c0).
  - destruct r as [|d r']; [intros [= <-]; exists c0; split; [done|by right]|].
    cbn [length] in Hl. destruct (is_low d).
    + rewrite !last_cons.
      destruct (last (stored_text r')) as [y|] eqn:Hy.
      * intros [= ->]. destruct (IH r' c) as (c' & Hc' & Hor); [lia|done|].
        exists c'. split; [by rewrite Hc'|done].
      * intros [= ->]. apply last_None, stored_text_nil in Hy as ->.
        exists c. split; [done|by left].
    + apply Hone. by right.
  - destruct (is_low c0); apply Hone; [by right|by left].
Qed.

Lemma stored_text_trimmed s : trimmed s → trimmed (stored_text s).
Proof.
  intros [Hhead Hlast]. split; intros c Hc.
  - apply stored_text_head in Hc as (c' & Hc' & [->| ->]); [by apply Hhead|done].
  - apply (stored_text_last_le (length s)) in Hc as (c' & Hc' & [->| ->]);
      [by apply Hlast|done|done].
Qed.

Lemma thread_row_ok now ip b board :
  text_rejected 5 (ThreadForm.text b) = Some false →
  thread_text_ok (thread_row now ip b board).
Proof.
  intros (t & Ht & _ & Hlen)%text_rejected_false.
  unfold thread_text_ok, thread_row. cbn [Thread.text]. rewrite Ht.
  cbn [str_of]. split; [apply stored_text_trimmed, trim_trimmed|].
  by rewrite stored_text_length.
Qed.

Lemma post_row_ok now ip b :
  text_rejected 1 (PostForm.text b) = Some false →
  post_text_ok (post_row now ip b).
Proof.
  intros (t & Ht & _ & Hlen)%text_rejected_false.
  unfold post_text_ok, post_row. cbn [Post.text]. rewrite Ht.
  cbn [str_of]. split; [apply stored_text_trimmed, trim_trimmed|].
  by rewrite stored_text_length.
Qed.

Lemma step_texts_ok e s : texts_ok s → texts_ok (step e s).1.
Proof.
  intros [Hthreads Hposts]. destruct e as [order clock|r]; [by split|].
  destruct r as [|code|id|now ip b|t1 t2 ip b|b]; cbn [step handle fst];
    try (split; assumption).
  - destruct (createThread_cases now ip b s)
      as [(c & e & _ & ->)|(board & Htext & _ & ->)]; [by split|].
    split; [|exact Hposts]. cbn [fst threads].
    intros r [->|[_ Hr]]%insert_row_stored; [|by apply Hthreads].
    by apply thread_row_ok.
  - destruct (createPost_cases t1 t2 ip b s)
      as [(c & e & _ & ->)|(thread & Htext & _ & _ & ->)]; [by split|].
    split; cbn [fst threads posts].
    + intros [k th] [(_ & th0 & Hth0 & ->)|[_ Hth]]%update_row_stored;
        [|by apply Hthreads].
      exact (Hthreads _ Hth0).
    + intros r [->|[_ Hr]]%insert_row_stored; [|by apply Hposts].
      by apply post_row_ok.
  - destruct (deletePost_cases b s)
      as [(c & e & _ & ->)|(r & _ & _ & _ & ->)]; [by split|].
    split; [exact Hthreads|]. cbn [fst posts].
    intros r' Hr'. apply delete_row_stored in Hr'. by apply Hposts.
Qed.

Lemma run_texts_ok es : ∀ s, texts_ok s → texts_ok (run es s).1.
Proof.
  induction es as [|e es IH]; intros s Hok; [done|].
  rewrite run_cons. cbn [fst]. by apply IH, step_texts_ok.
Qed.

Lemma texts_ok_empty : texts_ok empty_db.
Proof. split; intros r Hr; unfold stored in Hr; cbn in Hr; done. Qed.

(** X6. The texts the server stores are clean.  If every stored thread
    and post has a text without white space at either end, of at least
    5 UTF-16 code units for a thread and 1 for a post, then this is
    still so after any run: an accepted text is a string, it is stored
    trimmed, and what UTF-8 keeps of it has as many code units and no
    white space at its ends.  It holds on the fresh store.  (Of the
    other columns nothing of the kind holds: a truthy value that is not
    a string is stored as the driver binds it.) *)
Theorem stored_texts_stay_clean :
  texts_ok empty_db ∧ ∀ es s, texts_ok s → texts_ok (run es s).1.
Proof. split; [apply texts_ok_empty|]. intros es. apply run_texts_ok. Qed.

(** The store reached by the sample run, and its first post. *)
Lemma stored_texts_stay_clean_witness :
  texts_ok replayed ∧ post_text_ok plain_post.
Proof.
  destruct stored_texts_stay_clean as [Hempty Hrun].
  pose proof (Hrun replay empty_db Hempty) as Hok.
  split; [exact Hok|]. destruct Hok as [_ Hposts].
  apply (Hposts (1, plain_post)). vm_compute. reflexivity.
Defined.

(** ** Posting and reading back *)

Lemma accepted_error c e : c ≠ 200 → accepted (Some (error c e)) = false.
Proof. intros Hne. cbn. by apply Z.eqb_neq. Qed.

Lemma createPost_success t1 t2 ip b s :
  accepted (Some (createPost t1 t2 ip b s).2) = true →
  ∃ k th,
    text_rejected 1 (PostForm.text b) = Some false ∧
    PostForm.thread_id b = Some k ∧ stored (threads s) (k, th) ∧
    Thread.is_locked th = 0 ∧
    createPost t1 t2 ip b s =
      (Db (boards s) (update_row (bump t2) (Some k) (threads s))
          (insert_row (post_row t1 ip b) (posts s)).1,
       json (PostCreated (js "Пост добавлен") (new_rowid (posts s)))).
Proof.
  intros Hok.
  destruct (createPost_cases t1 t2 ip b s)
    as [(c & e & Hne & Hc)|(thread & Htext & Hthread & Hlock & Hc)].
  { rewrite Hc in Hok. cbn [snd] in Hok.
    by rewrite accepted_error in Hok. }
  apply get_row_Some in Hthread as [Hid Hth]. destruct thread as [k th].
  exists k, th. rewrite Hc, Hid. done.
Qed.

Lemma update_row_bumped {A} (f : A → A) (t : table A) k a :
  stored t (k, a) → get_row (Some k) (update_row f (Some k) t) = Some (k, f a).
Proof.
  intros Hk. apply get_row_Some. split; [done|].
  apply update_row_stored. left. split; [done|]. by exists a.
Qed.

(** X7. An accepted post can be read back.  It is stored under the id
    the answer carries, an id no stored post had, with the row built
    from the request (the text trimmed; text, name, password and image
    in the form the driver binds them, a string as UTF-8 keeps it, with
    U+FFFD for a surrogate without its partner); the view of its thread
    shows the thread as bumped and shows the new post unless 100 posts
    are shown already, and it shows nothing but the new post and posts
    the thread had before. *)
Theorem createPost_then_getThread t1 t2 ip b s :
  accepted (Some (createPost t1 t2 ip b s).2) = true →
  ∃ id k th shown board,
    (createPost t1 t2 ip b s).2 = json (PostCreated (js "Пост добавлен") id) ∧
    PostForm.thread_id b = Some k ∧ stored (threads s) (k, th) ∧
    rows (posts s) !! id = None ∧
    stored (posts (createPost t1 t2 ip b s).1) (id, post_row t1 ip b) ∧
    getThread (Some k) (createPost t1 t2 ip b s).1 =
      json (ThreadPage (k, bump t2 th) shown board) ∧
    ((id, post_row t1 ip b) ∈ shown ∨ length shown = 100%nat) ∧
    (∀ r, r ∈ shown → r = (id, post_row t1 ip b) ∨ post_of k s r).
Proof.
  intros Hok.
  destruct (createPost_success _ _ _ _ _ Hok)
    as (k & th & _ & Hid & Hth & _ & Hc).
  rewrite Hc. cbn [fst snd].
  set (s' := Db (boards s) (update_row (bump t2) (Some k) (threads s))
               (insert_row (post_row t1 ip b) (posts s)).1).
  assert (stored (posts s') (new_rowid (posts s), post_row t1 ip b)) as Hnew.
  { apply insert_row_stored. by left. }
  exists (new_rowid (posts s)), k, th. unfold getThread.
  replace (get_row (Some k) (threads s')) with (Some (k, bump t2 th))
    by (symmetry; by apply update_row_bumped).
  cbn [fst snd].
  set (P := λ r : Z * Post.t, sql_eq_ref (Post.thread_id r.2) (Some k)).
  eexists _, _. split; [reflexivity|]. split; [exact Hid|].
  split; [exact Hth|]. split; [apply new_rowid_fresh|].
  split; [exact Hnew|]. split; [reflexivity|]. split.
  - destruct (decide (length (limit 100 (order_by (asc Post.created_at)
                                          (where_ P (scan (posts s')))))
                      < 100)%nat) as [Hlt|Hge].
    + left. apply limit_all; [exact Hlt|].
      apply elem_of_where. split; [exact Hnew|].
      apply sql_eq_ref_true. exact Hid.
    + right.
      pose proof (limit_length 100 (order_by (asc Post.created_at)
                                      (where_ P (scan (posts s'))))).
      lia.
  - intros r Hr.
    assert (r ∈ where_ P (scan (posts s'))) as Hin.
    { eapply elem_of_order_by. eapply elem_of_sublist; [exact Hr|].
      apply limit_sublist. }
    apply elem_of_where in Hin as [Hst Hp].
    apply insert_row_stored in Hst as [->|[_ Hst]]; [by left|].
    right. split; [exact Hst|]. by apply sql_eq_ref_true.
Qed.

(** A third reply on the replayed store, sent with a password that
    ends in a lone surrogate. *)
Lemma createPost_then_getThread_witness :
  ∃ shown board,
    getThread (Some 1)
      (createPost 1700000600 1700000601 JUndefined
         (post_form 1 (JStr (js " third reply ")) (JStr torn_password))
         replayed).1 =
      json (ThreadPage (1, bump 1700000601 bumped_thread) shown board) ∧
    (3, Post.Row (Some 1) (Some (js "Аноним")) (js "third reply")
          (Some [112; 119; 65533]%N) None
          (Some (js "unknown")) 1700000600) ∈ shown.
Proof.
  destruct (createPost_then_getThread 1700000600 1700000601 JUndefined
              (post_form 1 (JStr (js " third reply ")) (JStr torn_password))
              replayed)
    as (id & k & th & shown & board & Hres & Hk & Hth & _ & _ & Hview
        & Hin & _).
  { vm_compute. reflexivity. }
  vm_compute in Hres. injection Hres as <-.
  injection Hk as <-. vm_compute in Hth. injection Hth as <-.
  exists shown, board. split; [exact Hview|].
  destruct Hin as [Hin|Hfull]; [exact Hin|]. exfalso.
  vm_compute in Hview. injection Hview as <- _. vm_compute in Hfull. lia.
Defined.

(** ** Bumping to the top *)

Lemma order_by_head_newest `{EqDecision A} (key : A → Z)
    (l : list (Z * A)) x :
  x ∈ l → (∀ y, y ∈ l → y ≠ x → key y.2 < key x.2) →
  ∃ rest, order_by (desc key) l = x :: rest.
Proof.
  intros Hx Hmax.
  pose proof (order_by_sorted (desc key) l) as Hsorted.
  pose proof (elem_of_order_by (desc key) l) as Hperm.
  destruct (order_by (desc key) l) as [|y rest].
  { apply Hperm in Hx. by apply elem_of_nil in Hx. }
  exists rest. f_equal.
  apply Hperm, elem_of_cons in Hx as [->|Hx]; [done|].
  destruct (decide (y = x)) as [Heq|Hne]; [done|].
  assert (y ∈ l) as Hy by (apply Hperm; left).
  specialize (Hmax y Hy Hne).
  apply StronglySorted_inv in Hsorted as [_ Hall].
  rewrite Forall_forall in Hall. specialize (Hall x Hx).
  unfold desc in Hall. lia.
Qed.

(** X8. A reply brings its thread to the top.  When a post is accepted
    on a non-sticky thread and the time of the update is later than the
    bump time of every other non-sticky thread of the board, the board
    page lists that thread, with its new bump time and reply count,
    first after the sticky threads. *)
Theorem createPost_bumps_to_top t1 t2 ip b s code board k th :
  accepted (Some (createPost t1 t2 ip b s).2) = true →
  PostForm.thread_id b = Some k →
  stored (threads s) (k, th) →
  board_by_code code s = Some board →
  Thread.board_id th = Some board.1 →
  Thread.is_sticky th = 0 →
  (∀ r, plain_on board.1 s r → r.1 ≠ k → Thread.bump_time r.2 < t2) →
  ∃ stickies rest,
    getBoard code (createPost t1 t2 ip b s).1 =
      json (BoardPage board (stickies ++ (k, bump t2 th) :: rest)) ∧
    (∀ r, r ∈ stickies → Thread.is_sticky r.2 = 1).
Proof.
  intros Hok Hid Hth Hboard Hon Hplain Hlater.
  destruct (createPost_success _ _ _ _ _ Hok)
    as (k' & th' & _ & Hid' & _ & _ & Hc).
  assert (k' = k) as -> by congruence. clear th' Hid'.
  rewrite Hc. cbn [fst].
  set (s' := Db (boards s) (update_row (bump t2) (Some k) (threads s))
               (insert_row (post_row t1 ip b) (posts s)).1).
  unfold getBoard.
  replace (board_by_code code s') with (Some board) by done.
  set (P := λ r : Z * Thread.t,
         sql_eq_ref (Thread.board_id r.2) (Some board.1)
         && (Thread.is_sticky r.2 =? 0)).
  destruct (order_by_head_newest Thread.bump_time
              (where_ P (scan (threads s'))) (k, bump t2 th))
    as (rest & Hhead).
  - apply plain_filter. split; [|by split].
    apply update_row_stored. left. split; [done|]. by exists th.
  - intros [k0 th0] Hy Hne. apply plain_filter in Hy as (Hst & Hb & Hs).
    cbn [fst snd] in *. unfold s' in Hst. cbn [threads] in Hst.
    apply update_row_stored in Hst as [([= ->] & th1 & Hth1 & ->)|[Hk0 Hst]].
    + rewrite (stored_inj _ _ _ _ Hth1 Hth) in Hne. by destruct Hne.
    + apply (Hlater (k0, th0)); [by split|]. cbn. congruence.
  - eexists _, (take 19 rest). fold P. rewrite Hhead. cbn [limit take].
    split; [reflexivity|].
    intros r Hr. apply elem_of_order_by, sticky_filter in Hr.
    by destruct Hr as (_ & _ & Hs).
Qed.

(** A reply to the oldest thread of the store with three threads on
    /b/: it moves ahead of the two younger ones. *)
Lemma createPost_bumps_to_top_witness :
  ∃ stickies rest,
    getBoard (JStr (js "b"))
      (createPost 1700000900 1700000900 JUndefined
         (post_form 3 (JStr (js "up")) JUndefined) busy_store).1 =
      json (BoardPage b_board
              (stickies ++
               (3, bump 1700000900
                     (Thread.Row (Some 1) None (Some (js "Аноним"))
                        (js "second thread") None None (Some (js "unknown"))
                        1700000200 1700000200 0 0 0)) :: rest)).
Proof.
  destruct (createPost_bumps_to_top 1700000900 1700000900 JUndefined
              (post_form 3 (JStr (js "up")) JUndefined) busy_store
              (JStr (js "b")) b_board 3
              (Thread.Row (Some 1) None (Some (js "Аноним"))
                 (js "second thread") None None (Some (js "unknown"))
                 1700000200 1700000200 0 0 0))
    as (stickies & rest & Hres & _).
  - vm_compute. reflexivity.
  - reflexivity.
  - vm_compute. reflexivity.
  - vm_compute. reflexivity.
  - reflexivity.
  - reflexivity.
  - intros [k0 th0] (Hst & _ & _) _. cbn [fst snd] in *.
    assert (seq_ok (threads busy_store)) as Hseq
      by (apply (bool_decide_unpack _); vm_compute; exact I).
    pose proof (Hseq k0 th0 Hst) as Hk0.
    assert (Forall (λ r, Thread.bump_time r.2 < 1700000900)
              (scan (threads busy_store))) as Hall
      by (apply (bool_decide_unpack _); vm_compute; exact I).
    rewrite Forall_forall in Hall. apply (Hall (k0, th0)).
    by apply elem_of_scan.
  - exists stickies, rest. exact Hres.
Defined.

(** ** What no request changes *)

Lemma step_thread_locked e s k th :
  stored (threads s) (k, th) → Thread.is_locked th ≠ 0 →
  stored (threads (step e s).1) (k, th).
Proof.
  intros Hk Hlock.
  destruct (step_thread e s k th Hk) as (th' & Hk' & Hstep).
  destruct (post_on k e) as [now|] eqn:Hpost; [|by subst].
  destruct (accepted (step e s).2) eqn:Hok; [|by subst].
  exfalso. destruct e as [|[]]; try done. cbn [post_on] in Hpost.
  case_bool_decide as Hid; [|done]. cbn [step handle] in Hok.
  destruct (createPost now_insert now_update ip b s) as [s1 res] eqn:Hc.
  cbn [snd] in Hok.
  assert (accepted (Some (createPost now_insert now_update ip b s).2) = true)
    as Hok' by by rewrite Hc.
  destruct (createPost_success _ _ _ _ _ Hok')
    as (k1 & th1 & _ & Hid1 & Hth1 & Hlock1 & _).
  assert (k1 = k) as -> by congruence.
  rewrite (stored_inj _ _ _ _ Hth1 Hk) in Hlock1. by destruct Hlock.
Qed.

Lemma run_thread_locked es : ∀ s k th,
  stored (threads s) (k, th) → Thread.is_locked th ≠ 0 →
  stored (threads (run es s).1) (k, th).
Proof.
  induction es as [|e es IH]; intros s k th Hk Hlock; [done|].
  rewrite run_cons. cbn [fst]. apply IH; [|done].
  by apply step_thread_locked.
Qed.

(** The columns of a thread that [bump] leaves alone. *)
Lemma run_thread_fixed es : ∀ s k th,
  stored (threads s) (k, th) →
  ∃ th', stored (threads (run es s).1) (k, th') ∧
    Thread.is_sticky th' = Thread.is_sticky th ∧
    Thread.is_locked th' = Thread.is_locked th ∧
    Thread.board_id th' = Thread.board_id th ∧
    Thread.created_at th' = Thread.created_at th ∧
    Thread.text th' = Thread.text th ∧
    Thread.subject th' = Thread.subject th ∧
    Thread.name th' = Thread.name th ∧
    Thread.password th' = Thread.password th.
Proof.
  induction es as [|e es IH]; intros s k th Hk.
  { exists th. by repeat split. }
  rewrite run_cons. cbn [fst].
  destruct (step_thread e s k th Hk) as (th1 & Hk1 & Hstep).
  destruct (IH _ _ _ Hk1) as (th' & Hk' & H1 & H2 & H3 & H4 & H5 & H6 & H7 & H8).
  exists th'. split; [exact Hk'|].
  assert (th1 = th ∨ ∃ now, th1 = bump now th) as [->|[now ->]].
  { destruct (post_on k e) as [now|]; [|by left].
    destruct (accepted (step e s).2); [right; by exists now|by left]. }
  - by repeat split.
  - rewrite H1, H2, H3, H4, H5, H6, H7, H8. by repeat split.
Qed.

(** X9. No request moderates.  Over any run a thread keeps its sticky
    and locked flags, its board, creation time, text, subject, name and
    password; and a thread that is locked keeps its whole row, so its
    reply count and bump time stay frozen. *)
Theorem threads_keep_flags es s k th :
  stored (threads s) (k, th) →
  (∃ th', stored (threads (run es s).1) (k, th') ∧
     Thread.is_sticky th' = Thread.is_sticky th ∧
     Thread.is_locked th' = Thread.is_locked th ∧
     Thread.board_id th' = Thread.board_id th ∧
     Thread.created_at th' = Thread.created_at th ∧
     Thread.text th' = Thread.text th ∧
     Thread.subject th' = Thread.subject th ∧
     Thread.name th' = Thread.name th ∧
     Thread.password th' = Thread.password th) ∧
  (Thread.is_locked th ≠ 0 → stored (threads (run es s).1) (k, th)).
Proof.
  intros Hk. split; [by apply run_thread_fixed|].
  by apply run_thread_locked.
Qed.

(** Two replies sent to the locked thread leave its row as it was. *)
Lemma threads_keep_flags_witness :
  stored (threads locked_store) (1, locked_thread) ∧
  stored
    (threads
       (run [ Request (CreatePost 1700000600 1700000600 JUndefined
                         (post_form 1 (JStr (js "hi")) JUndefined));
              Request (CreatePost 1700000700 1700000700 JUndefined
                         (post_form 1 (JStr (js "again")) JUndefined)) ]
          locked_store).1) (1, locked_thread).
Proof.
  assert (stored (threads locked_store) (1, locked_thread)) as Hk
    by (vm_compute; reflexivity).
  split; [exact Hk|].
  apply (threads_keep_flags _ locked_store 1 locked_thread Hk).
  vm_compute. discriminate.
Defined.

(** ** When a post is accepted *)

Lemma trim_start_spaces s :
  Forall (λ c, is_space c = true) s → trim_start s = [].
Proof.
  induction 1 as [|c s Hc _ IH]; [done|]. cbn [trim_start]. by rewrite Hc.
Qed.

Lemma trim_spaces s : Forall (λ c, is_space c = true) s → trim s = [].
Proof. intros Hs. unfold trim. by rewrite (trim_start_spaces s Hs). Qed.

Lemma text_rejected_1 v :
  text_rejected 1 v = Some false ↔ ∃ t, v = JStr t ∧ trim t ≠ [].
Proof.
  rewrite text_rejected_false. split.
  - intros (t & -> & _ & Hlen). exists t. split; [done|].
    intros Ht. rewrite Ht in Hlen. cbn in Hlen. lia.
  - intros (t & -> & Hne). exists t. split; [done|].
    destruct t as [|c t]; [done|]. split; [done|].
    destruct (trim (c :: t)); [done|]. cbn. lia.
Qed.

(** X10. A post is accepted exactly when its text is a string with
    something other than white space in it and it names a stored
    thread that is not locked.  Every other request leaves the store as
    it is; a text of white space only is refused with status 400,
    whatever thread it names. *)
Theorem createPost_accepted_iff t1 t2 ip b s :
  (accepted (Some (createPost t1 t2 ip b s).2) = true ↔
     (∃ t, PostForm.text b = JStr t ∧ trim t ≠ []) ∧
     (∃ k th, PostForm.thread_id b = Some k ∧ stored (threads s) (k, th) ∧
              Thread.is_locked th = 0)) ∧
  (accepted (Some (createPost t1 t2 ip b s).2) = false →
     (createPost t1 t2 ip b s).1 = s) ∧
  (∀ t, PostForm.text b = JStr t → Forall (λ c, is_space c = true) t →
        createPost t1 t2 ip b s = (s, post_text_missing)).
Proof.
  split; [split|split].
  - intros Hok.
    destruct (createPost_success _ _ _ _ _ Hok)
      as (k & th & Htext & Hid & Hth & Hlock & _).
    split; [by apply text_rejected_1|]. by exists k, th.
  - intros [Htext (k & th & Hid & Hth & Hlock)].
    apply text_rejected_1 in Htext. unfold createPost. rewrite Htext.
    replace (get_row (PostForm.thread_id b) (threads s))
      with (Some (k, th)) by (symmetry; by apply get_row_Some).
    cbn [snd]. by rewrite Hlock.
  - intros Hno.
    destruct (createPost_cases t1 t2 ip b s)
      as [(c & e & _ & ->)|(thread & _ & _ & _ & Hc)]; [done|].
    by rewrite Hc in Hno.
  - intros t Ht Hspaces. unfold createPost.
    replace (text_rejected 1 (PostForm.text b)) with (Some true); [done|].
    symmetry. apply text_rejected_true. right. exists t. split; [done|].
    rewrite trim_spaces by done. cbn [length]. lia.
Qed.

(** A reply of blanks and a line break to the first thread. *)
Lemma createPost_accepted_iff_witness :
  createPost 1700000600 1700000600 JUndefined
    (post_form 1 (JStr [32; 9; 10; 32]%N) JUndefined) replayed
    = (replayed, post_text_missing) ∧
  accepted (Some (createPost 1700000600 1700000600 JUndefined
                    (post_form 1 (JStr (js " ok ")) JUndefined) replayed).2)
    = true.
Proof.
  split.
  - destruct (createPost_accepted_iff 1700000600 1700000600 JUndefined
                (post_form 1 (JStr [32; 9; 10; 32]%N) JUndefined) replayed)
      as (_ & _ & Hblank).
    apply (Hblank [32; 9; 10; 32]%N eq_refl).
    repeat constructor.
  - destruct (createPost_accepted_iff 1700000600 1700000600 JUndefined
                (post_form 1 (JStr (js " ok ")) JUndefined) replayed)
      as ((_ & Hok) & _).
    apply Hok. split.
    + exists (js " ok "). split; [reflexivity|]. vm_compute. discriminate.
    + exists 1, bumped_thread. split; [reflexivity|].
      split; [vm_compute; reflexivity|reflexivity].
Defined.

(** ** Board codes *)

Lemma insert_or_ignore_unique now b t :
  codes_unique t → codes_unique (insert_or_ignore now b t).
Proof.
  intros Huniq. destruct b as [[c n] d]. unfold insert_or_ignore.
  destruct (where_ _ _) as [|r0 l] eqn:Hw; [|exact Huniq].
  assert (∀ r, stored t r → Board.code r.2 ≠ c) as Hfree.
  { intros r Hr Hc.
    assert (r ∈ where_ (λ r, bool_decide (Board.code r.2 = c)) (scan t))
      as Hin by by apply code_filter.
    rewrite Hw in Hin. by apply elem_of_nil in Hin. }
  assert (∀ r, stored (Table (<[new_rowid t := Board.Row c n (Some d) now]>
                                 (rows t)) (new_rowid t)) r →
               r = (new_rowid t, Board.Row c n (Some d) now) ∨ stored t r)
    as Hcases.
  { intros [k a]. unfold stored. cbn [rows fst snd].
    rewrite lookup_insert. case_decide as Hk; [|by right].
    intros [= <-]. left. by rewrite Hk. }
  intros r r' Hr Hr' Hc.
  destruct (Hcases r Hr) as [->|Hold], (Hcases r' Hr') as [->|Hold'].
  - done.
  - by destruct (Hfree r' Hold').
  - by destruct (Hfree r Hold).
  - by apply Huniq.
Qed.

Lemma seed_in_unique clock order : ∀ t,
  codes_unique t → codes_unique (seed_in order clock t).
Proof.
  induction order as [|i order IH]; intros t Huniq; [done|].
  cbn [seed_in]. apply IH. unfold seed_one.
  destruct (seed_boards !! i); [|done]. by apply insert_or_ignore_unique.
Qed.

Lemma step_unique e s : unique_codes s → unique_codes (step e s).1.
Proof.
  unfold unique_codes. intros Huniq. destruct e as [order clock|r]; cbn [step].
  - cbn [fst initDatabase boards]. by apply seed_in_unique.
  - pose proof (handle_boards r s) as Hb.
    destruct (handle r s) as [s' res]. cbn [fst] in *. by rewrite Hb.
Qed.

Lemma run_unique es : ∀ s, unique_codes s → unique_codes (run es s).1.
Proof.
  induction es as [|e es IH]; intros s Huniq; [done|].
  rewrite run_cons. cbn [fst]. by apply IH, step_unique.
Qed.

Lemma unique_empty : unique_codes empty_db.
Proof. intros r r' Hr. unfold stored in Hr. cbn in Hr. done. Qed.

(** X11. Board codes stay unique: if no two stored boards share a code,
    this is still so after any run, restarts included.  It holds on the
    fresh store. *)
Theorem board_codes_stay_unique :
  unique_codes empty_db ∧ ∀ es s, unique_codes s → unique_codes (run es s).1.
Proof. split; [apply unique_empty|]. intros es. apply run_unique. Qed.

(** The store reached by the sample run, restarted once more. *)
Lemma board_codes_stay_unique_witness :
  unique_codes
    (run (replay ++ [Startup [7; 6; 5; 4; 3; 2; 1; 0]%nat sample_clock])
       empty_db).1.
Proof.
  destruct board_codes_stay_unique as [Hempty Hrun].
  apply (Hrun _ empty_db Hempty).
Defined.

Lemma sql_eq_text_true col v :
  sql_eq_text (Some col) v = true ↔ sql_text v = Some col.
Proof.
  unfold sql_eq_text. destruct (sql_text v) as [c|]; [|done].
  rewrite bool_decide_eq_true. split; congruence.
Qed.

(** X12. The board page is found by code.  [getBoard] answers 404
    exactly when no stored board has the code asked for (as the driver
    binds it); and when codes are unique, asking for the code of a
    stored board answers with the page of that very board. *)
Theorem getBoard_by_code s :
  (∀ code, status (getBoard code s) = 404 ↔
           ∀ r, stored (boards s) r → sql_text code ≠ Some (Board.code r.2)) ∧
  (unique_codes s →
   ∀ b code, stored (boards s) b → sql_text code = Some (Board.code b.2) →
        ∃ listed, getBoard code s = json (BoardPage b listed)).
Proof.
  split.
  - intros code. unfold getBoard.
    destruct (board_by_code code s) as [board|] eqn:Hb.
    + split; [done|]. intros Hnone. exfalso.
      apply board_by_code_Some in Hb as [Hst Hc]. by apply (Hnone board).
    + split; [|done]. intros _ r Hr Hc.
      unfold board_by_code in Hb. rewrite first_row_None in Hb.
      specialize (Hb r Hr). cbn beta in Hb.
      apply sql_eq_text_true in Hc. congruence.
  - intros Huniq b code Hb Hbound. unfold getBoard.
    destruct (board_by_code code s) as [board|] eqn:Hcode.
    + apply board_by_code_Some in Hcode as [Hst Hc].
      rewrite Hbound in Hc. injection Hc as Hc.
      rewrite (Huniq b board Hb Hst Hc). by eexists.
    + exfalso. unfold board_by_code in Hcode.
      rewrite first_row_None in Hcode. specialize (Hcode b Hb).
      cbn beta in Hcode.
      assert (sql_eq_text (Some (Board.code b.2)) code = true) as Ht
        by by apply sql_eq_text_true.
      congruence.
Qed.

(** /b/ is found on the replayed store; "zzz" is not. *)
Lemma getBoard_by_code_witness :
  (∃ listed, getBoard (JStr (js "b")) replayed =
               json (BoardPage b_board listed)) ∧
  status (getBoard (JStr (js "zzz")) replayed) = 404.
Proof.
  destruct (getBoard_by_code replayed) as [Hmiss Hfound]. split.
  - apply (Hfound (run_unique replay empty_db unique_empty) b_board).
    + vm_compute. reflexivity.
    + vm_compute. reflexivity.
  - apply Hmiss. intros r Hr Hc.
    assert (Forall (λ r, sql_text (JStr (js "zzz")) ≠ Some (Board.code r.2))
              (scan (boards replayed))) as Hall
      by (apply (bool_decide_unpack _); vm_compute; exact I).
    rewrite Forall_forall in Hall. apply (Hall r); [|exact Hc].
    by apply elem_of_scan.
Defined.

(** ** Restarting *)

Lemma insert_or_ignore_stored now c n d t r :
  stored (insert_or_ignore now (c, n, d) t) r →
  stored t r ∨ (¬ has_code t c ∧ r.2 = Board.Row c n (Some d) now).
Proof.
  unfold insert_or_ignore.
  destruct (where_ _ _) as [|r0 l] eqn:Hw; [|by left].
  destruct r as [k a]. unfold stored. cbn [rows fst snd].
  rewrite lookup_insert. case_decide as Hk; [|by left].
  intros [= <-]. right. split; [|done]. intros (r & Hr).
  apply code_filter in Hr. rewrite Hw in Hr. by apply elem_of_nil in Hr.
Qed.

Lemma seed_in_stored clock order : ∀ t r,
  stored (seed_in order clock t) r →
  stored t r ∨
  (¬ has_code t (Board.code r.2) ∧
   ∃ j b, j ∈ order ∧ seed_boards !! j = Some b ∧
          r.2 = Board.Row b.1.1 b.1.2 (Some b.2) (clock j)).
Proof.
  induction order as [|i order IH]; intros t r Hr; [by left|].
  cbn [seed_in] in Hr.
  destruct (IH _ _ Hr) as [Hst|(Hfree & j & b & Hj & Hb & Hrow)].
  - unfold seed_one in Hst. destruct (seed_boards !! i) as [[[c n] d]|] eqn:Hi;
      [|by left].
    apply insert_or_ignore_stored in Hst as [Hst|[Hfree Hrow]]; [by left|].
    right. rewrite Hrow. split; [exact Hfree|].
    exists i, (c, n, d). split; [by left|done].
  - right. split.
    + intros Hhas. by apply Hfree, seed_one_mono.
    + exists j, b. split; [by right|done].
Qed.

(** X13. A restart adds, it never overwrites.  In whatever order the
    seed INSERTs run, [initDatabase] leaves the threads and posts as
    they are and keeps every stored board row; a board row it adds
    comes from the seed list, with the time of its own INSERT, and has
    a code no board had before. *)
Theorem initDatabase_only_adds order clock s :
  threads (initDatabase order clock s) = threads s ∧
  posts (initDatabase order clock s) = posts s ∧
  (∀ r, stored (boards s) r →
        stored (boards (initDatabase order clock s)) r) ∧
  (∀ r, stored (boards (initDatabase order clock s)) r →
        stored (boards s) r ∨
        (¬ has_code (boards s) (Board.code r.2) ∧
         ∃ j b, j ∈ order ∧ seed_boards !! j = Some b ∧
                r.2 = Board.Row b.1.1 b.1.2 (Some b.2) (clock j))).
Proof.
  split; [reflexivity|]. split; [reflexivity|]. split.
  - intros r Hr. by apply seed_in_keeps.
  - intros r Hr. by apply seed_in_stored in Hr.
Qed.

(** ** Statistics *)








(** ** The reply counter and the posts *)

Lemma scan_insert_row {A} (a : A) (t : table A) :
  scan (insert_row a t).1 ≡ₚ (new_rowid t, a) :: scan t.
Proof.
  rewrite !scan_perm. cbn [insert_row fst rows].
  apply map_to_list_insert, new_rowid_fresh.
Qed.

Lemma scan_delete_row {A} (t : table A) r :
  stored t r → scan t ≡ₚ r :: scan (delete_row (Some r.1) t).
Proof.
  intros Hr. rewrite !scan_perm. cbn [delete_row rows]. destruct r as [k a].
  symmetry. by apply map_to_list_delete.
Qed.

Lemma where_cons_length {A} (p : Z * A → bool) r l :
  length (where_ p (r :: l)) =
    ((if p r then 1 else 0) + length (where_ p l))%nat.
Proof.
  unfold where_. rewrite filter_cons. destruct (p r) eqn:Hp.
  - by rewrite decide_True.
  - by rewrite decide_False by congruence.
Qed.

Lemma where_length_insert {A} (p : Z * A → bool) (a : A) (t : table A) :
  length (where_ p (scan (insert_row a t).1)) =
    ((if p (new_rowid t, a) then 1 else 0) + length (where_ p (scan t)))%nat.
Proof.
  unfold where_ at 1. rewrite scan_insert_row. apply where_cons_length.
Qed.

Lemma where_length_delete {A} (p : Z * A → bool) (t : table A) r :
  stored t r →
  (length (where_ p (scan (delete_row (Some r.1) t)))
   ≤ length (where_ p (scan t)))%nat.
Proof.
  intros Hr. unfold where_ at 2. rewrite (scan_delete_row t r Hr).
  fold (where_ p (r :: scan (delete_row (Some r.1) t))).
  rewrite where_cons_length. lia.
Qed.

Lemma step_posts_count k e s :
  posts_count k (step e s).1 ≤
    posts_count k s
    + match post_on k e with
      | Some _ => if accepted (step e s).2 then 1 else 0
      | None => 0
      end.
Proof.
  assert (∀ x : bool, 0 ≤ (if x then 1 else 0)) as Hpos
    by (intros []; lia).
  destruct e as [order clock|r].
  { unfold posts_count. cbn [step fst post_on initDatabase posts]. lia. }
  destruct r as [|code|id|now ip b|t1 t2 ip b|b]; cbn [step handle post_on].
  - cbn [fst]. lia.
  - cbn [fst]. lia.
  - cbn [fst]. lia.
  - destruct (createThread_cases now ip b s)
      as [(c & e & _ & ->)|(bd & _ & _ & ->)]; cbn [fst]; unfold posts_count;
      cbn [posts]; lia.
  - destruct (createPost_cases t1 t2 ip b s)
      as [(c & e & Hne & ->)|(th & _ & _ & _ & ->)]; cbn [fst snd].
    + destruct (bool_decide _); [specialize (Hpos (accepted (Some (error c e))))|];
        lia.
    + unfold posts_count. cbn [posts]. rewrite where_length_insert.
      cbn [snd Post.thread_id post_row].
      destruct (sql_eq_ref (PostForm.thread_id b) (Some k)) eqn:Hp.
      * apply sql_eq_ref_true in Hp. rewrite bool_decide_true by done.
        cbn. lia.
      * destruct (bool_decide _); cbn; lia.
  - destruct (deletePost_cases b s)
      as [(c & e & _ & ->)|(r & Hr & _ & _ & ->)]; cbn [fst].
    + lia.
    + unfold posts_count. cbn [posts].
      pose proof (where_length_delete
                    (λ r, sql_eq_ref (Post.thread_id r.2) (Some k))
                    (posts s) r Hr). lia.
Qed.

Lemma run_posts_count k es : ∀ s,
  posts_count k (run es s).1 ≤
    posts_count k s + accepted_posts k es (run es s).2.
Proof.
  induction es as [|e es IH]; intros s; [cbn; lia|].
  rewrite run_cons. cbn [fst snd accepted_posts].
  specialize (IH (step e s).1). pose proof (step_posts_count k e s). lia.
Qed.

(** X15. The reply counter never falls behind.  If a thread's
    [reply_count] is at least the number of its stored posts, this is
    still so after any run: each accepted post adds one to both, and a
    deletion lowers only the number of posts. *)
Theorem reply_count_covers_posts es s k th :
  stored (threads s) (k, th) →
  posts_count k s ≤ Thread.reply_count th →
  ∃ th', stored (threads (run es s).1) (k, th') ∧
         posts_count k (run es s).1 ≤ Thread.reply_count th'.
Proof.
  intros Hk Hle.
  destruct (run_reply_count es s k th Hk) as (th' & Hk' & Hcount).
  exists th'. split; [exact Hk'|].
  pose proof (run_posts_count k es s). lia.
Qed.

(** The first thread after its second post was deleted: the counter
    says 2, one post is left. *)
Lemma reply_count_covers_posts_witness :
  ∃ th', stored
           (threads
              (deletePost (DeleteForm.Body (Some 2) (JStr (js "secret")))
                 replayed).1) (1, th') ∧
         Thread.reply_count th' = 2 ∧
         posts_count 1
           (deletePost (DeleteForm.Body (Some 2) (JStr (js "secret")))
              replayed).1 = 1.
Proof.
  destruct (reply_count_covers_posts
              [Request (DeletePost
                          (DeleteForm.Body (Some 2) (JStr (js "secret"))))]
              replayed 1 bumped_thread) as (th' & Hth' & _).
  - vm_compute. reflexivity.
  - vm_compute. discriminate.
  - exists th'. split; [exact Hth'|].
    vm_compute in Hth'. injection Hth' as <-.
    split; [reflexivity|]. vm_compute. reflexivity.
Defined.

(** ** Recent posts *)

Global Instance newest_first_total : Total newest_first.
Proof. intros x y. unfold newest_first. lia. Qed.
Global Instance newest_first_trans : Transitive newest_first.
Proof. intros x y z. unfold newest_first. lia. Qed.

Lemma limit_param_sublist {A} n (l : list A) : limit_param n l `sublist_of` l.
Proof.
  unfold limit_param. destruct (n <? 0); [done|]. apply sublist_take.
Qed.

Lemma limit_param_sorted {A} (R : relation A) n (l : list A) :
  StronglySorted R l → StronglySorted R (limit_param n l).
Proof.
  intros Hs. unfold limit_param. destruct (n <? 0); [done|].
  rewrite <- (take_drop (Z.to_nat n) l) in Hs.
  by apply StronglySorted_app_1_l in Hs.
Qed.

Lemma join_post_Some s p r :
  join_post s p = Some r →
  post r = p ∧
  ∃ t b, stored (threads s) t ∧ Post.thread_id p.2 = Some t.1 ∧
         stored (boards s) b ∧ Thread.board_id t.2 = Some b.1 ∧
         board_code r = Board.code b.2 ∧
         thread_subject r = Thread.subject t.2.
Proof.
  unfold join_post.
  destruct (get_row _ (threads s)) as [t|] eqn:Ht; [|done].
  destruct (get_row _ (boards s)) as [b|] eqn:Hb; [|done].
  intros [= <-]. apply get_row_Some in Ht as [Ht1 Ht2].
  apply get_row_Some in Hb as [Hb1 Hb2]. split; [done|]. by exists t, b.
Qed.

Lemma join_post_ref_ok s p :
  ref_ok s → stored (posts s) p → ∃ r, join_post s p = Some r ∧ post r = p.
Proof.
  intros [Hposts Hthreads] Hp.
  destruct (Hposts p Hp) as (k & th & Hk & Hth).
  destruct (Hthreads _ Hth) as (bk & bd & Hb & Hbd).
  pose proof (get_row_stored _ (k, th) Hth) as Hg1.
  pose proof (get_row_stored _ (bk, bd) Hbd) as Hg2.
  cbn [fst snd] in Hg1, Hg2, Hb.
  unfold join_post. rewrite Hk, Hg1. cbn [snd]. rewrite Hb, Hg2.
  by eexists.
Qed.

Lemma limit_param_cut {A} (R : relation A) n (l : list A) r r' :
  StronglySorted R l → r ∈ l → r ∉ limit_param n l →
  r' ∈ limit_param n l → R r' r.
Proof.
  unfold limit_param. intros Hs Hr Hout Hin.
  destruct (n <? 0); [by destruct Hout|].
  rewrite <- (take_drop (Z.to_nat n) l) in Hs, Hr.
  eapply StronglySorted_app_1_elem_of; [exact Hs|exact Hin|].
  apply elem_of_app in Hr as [Hr|Hr]; [by destruct Hout|done].
Qed.

Lemma recent_sorted s : StronglySorted newest_first
                          (merge_sort newest_first (recent_join s)).
Proof. apply StronglySorted_merge_sort; apply _. Qed.

Lemma listRecentPosts_fits parsed s :
  fits_int64 (recent_limit parsed) = true →
  listRecentPosts parsed s =
    RecentRows (limit_param (recent_limit parsed)
                  (merge_sort newest_first (recent_join s))).
Proof. intros Hfits. unfold listRecentPosts. by rewrite Hfits. Qed.

Lemma listRecentPosts_data parsed s data :
  listRecentPosts parsed s = RecentRows data →
  data = limit_param (recent_limit parsed)
           (merge_sort newest_first (recent_join s)).
Proof.
  unfold listRecentPosts. destruct (fits_int64 _); [|done]. by intros [= <-].
Qed.

Lemma fits_int64_true n :
  -9223372036854775808 < n < 9223372036854775808 → fits_int64 n = true.
Proof.
  intros [Hlo Hhi]. unfold fits_int64.
  apply andb_true_intro. split; by apply Z.ltb_lt.
Qed.

Lemma fits_int64_false n :
  n ≤ -9223372036854775808 ∨ 9223372036854775808 ≤ n → fits_int64 n = false.
Proof.
  intros Hout. unfold fits_int64. apply andb_false_iff.
  destruct Hout; [left|right]; by apply Z.ltb_ge.
Qed.

Lemma omap_length_total {A B} (f : A → option B) (l : list A) :
  (∀ x, x ∈ l → is_Some (f x)) → length (omap f l) = length l.
Proof.
  induction l as [|x l IH]; intros Hall; [done|]. cbn [omap list_omap].
  destruct (Hall x) as [y Hy]; [by left|]. rewrite Hy. cbn [length].
  f_equal. apply IH. intros x' Hx'. apply Hall. by right.
Qed.

(** X16. The limit of the recent posts.  A missing, unreadable or zero
    limit means 15.  A positive limit below 2^63 gives the rows of the
    join newest first, as many as the limit or all of them if there are
    fewer, and every row it leaves out is not newer than any row it
    returns.  A negative limit above -2^63 is no limit at all: every
    joined post is returned, newest first.  A limit that is no 64-bit
    integer is refused by SQLite and answered with status 500. *)
Theorem listRecentPosts_limit s :
  listRecentPosts None s = listRecentPosts (Some 15) s ∧
  listRecentPosts (Some 0) s = listRecentPosts (Some 15) s ∧
  (∀ n, 0 < n < 9223372036854775808 →
     ∃ data, listRecentPosts (Some n) s = RecentRows data ∧
       length data = (Z.to_nat n `min` length (recent_join s))%nat ∧
       (∀ r, r ∈ data → r ∈ recent_join s) ∧
       StronglySorted newest_first data ∧
       (∀ r r', r ∈ recent_join s → r ∉ data → r' ∈ data →
                Post.created_at (post r).2 ≤ Post.created_at (post r').2)) ∧
  (∀ n, -9223372036854775808 < n < 0 →
     ∃ data, listRecentPosts (Some n) s = RecentRows data ∧
       data ≡ₚ recent_join s ∧ StronglySorted newest_first data) ∧
  (∀ n, n ≤ -9223372036854775808 ∨ 9223372036854775808 ≤ n →
     listRecentPosts (Some n) s = RecentError 500 (js "Ошибка сервера")).
Proof.
  split; [reflexivity|]. split; [reflexivity|]. split; [|split].
  - intros n [Hpos Hhi]. eexists. split.
    { apply listRecentPosts_fits. unfold recent_limit.
      destruct (Z.eqb_spec n 0) as [->|_]; [lia|].
      apply fits_int64_true. lia. }
    unfold recent_limit. destruct (Z.eqb_spec n 0) as [->|_]; [lia|].
    split; [|split; [|split]].
    + unfold limit_param. destruct (Z.ltb_spec n 0) as [Hneg|_]; [lia|].
      by rewrite length_take, merge_sort_Permutation.
    + intros r Hr.
      pose proof (elem_of_sublist _ _ _ Hr (limit_param_sublist _ _)) as Hr'.
      by rewrite merge_sort_Permutation in Hr'.
    + apply limit_param_sorted, recent_sorted.
    + intros r r' Hr Hout Hin.
      apply (limit_param_cut newest_first n
               (merge_sort newest_first (recent_join s)) r r');
        [apply recent_sorted| |done|done].
      by rewrite merge_sort_Permutation.
  - intros n [Hlo Hneg]. eexists. split.
    { apply listRecentPosts_fits. unfold recent_limit.
      destruct (Z.eqb_spec n 0) as [->|_]; [lia|].
      apply fits_int64_true. lia. }
    unfold recent_limit. destruct (Z.eqb_spec n 0) as [->|_]; [lia|].
    unfold limit_param. destruct (Z.ltb_spec n 0) as [_|Hpos]; [|lia].
    split; [apply merge_sort_Permutation|apply recent_sorted].
  - intros n Hout. unfold listRecentPosts, recent_limit.
    destruct (Z.eqb_spec n 0) as [->|_]; [lia|].
    by rewrite fits_int64_false.
Qed.

(** X17. What the recent posts hold.  When rows are answered, every row
    is a stored post, all its columns included, joined to its stored
    thread and that thread's stored board, whose code and subject it
    carries.  On a store with valid references every stored post has
    its row in the join: a stored post that is left out is not newer
    than any post returned, a positive limit returns as many posts as
    the limit or all stored posts if there are fewer, and with a
    negative limit every stored post is among the rows. *)
Theorem listRecentPosts_rows parsed s data :
  listRecentPosts parsed s = RecentRows data →
  (∀ r, r ∈ data →
        stored (posts s) (post r) ∧
        ∃ t b, stored (threads s) t ∧
               Post.thread_id (post r).2 = Some t.1 ∧
               stored (boards s) b ∧ Thread.board_id t.2 = Some b.1 ∧
               board_code r = Board.code b.2 ∧
               thread_subject r = Thread.subject t.2) ∧
  (ref_ok s →
   (∀ p r', stored (posts s) p → (∀ r, r ∈ data → post r ≠ p) → r' ∈ data →
            Post.created_at p.2 ≤ Post.created_at (post r').2) ∧
   (∀ n, parsed = Some n → 0 < n →
         length data = (Z.to_nat n `min` Z.to_nat (count_rows (posts s)))%nat) ∧
   (∀ n p, parsed = Some n → n < 0 → stored (posts s) p →
           ∃ r, r ∈ data ∧ post r = p)).
Proof.
  intros Hdata%listRecentPosts_data. subst data. split.
  - intros r Hr.
    assert (r ∈ recent_join s) as Hin.
    { pose proof (elem_of_sublist _ _ _ Hr (limit_param_sublist _ _)) as Hr'.
      by rewrite merge_sort_Permutation in Hr'. }
    apply list_elem_of_omap in Hin as (p & Hp & Hjoin).
    apply join_post_Some in Hjoin as [<- Hrest].
    split; [|exact Hrest]. by apply elem_of_scan.
  - intros Hok. split; [|split].
    + intros p r' Hp Hout Hin.
      destruct (join_post_ref_ok s p Hok Hp) as (r & Hjoin & Hpost).
      rewrite <- Hpost.
      apply (limit_param_cut newest_first (recent_limit parsed)
               (merge_sort newest_first (recent_join s)) r r');
        [apply recent_sorted| | |done].
      * rewrite merge_sort_Permutation. apply list_elem_of_omap.
        exists p. split; [by apply elem_of_scan|exact Hjoin].
      * intros Hr. by apply (Hout r Hr).
    + intros n -> Hn. unfold recent_limit, limit_param.
      destruct (Z.eqb_spec n 0) as [->|_]; [lia|].
      destruct (Z.ltb_spec n 0) as [Hneg|_]; [lia|].
      rewrite length_take, merge_sort_Permutation. unfold recent_join.
      rewrite omap_length_total.
      * unfold count_rows. rewrite Nat2Z.id. unfold scan.
        by rewrite merge_sort_Permutation, length_map_to_list.
      * intros p Hp%elem_of_scan.
        destruct (join_post_ref_ok s p Hok Hp) as (r & Hjoin & _).
        by exists r.
    + intros n p -> Hn Hp.
      destruct (join_post_ref_ok s p Hok Hp) as (r & Hjoin & Hpost).
      exists r. split; [|exact Hpost].
      unfold recent_limit, limit_param.
      destruct (Z.eqb_spec n 0) as [->|_]; [lia|].
      destruct (Z.ltb_spec n 0) as [_|Hpos]; [|lia].
      rewrite merge_sort_Permutation. apply list_elem_of_omap.
      exists p. split; [by apply elem_of_scan|exact Hjoin].
Qed.

(** With limit -1 the replayed store returns the post that has a
    password, on board /b/. *)
Lemma listRecentPosts_rows_witness :
  ∃ data r, listRecentPosts (Some (-1)) replayed = RecentRows data ∧
            r ∈ data ∧ post r = (2, secret_post) ∧ board_code r = js "b".
Proof.
  destruct (listRecentPosts (Some (-1)) replayed) as [data|c e] eqn:Hans;
    [|vm_compute in Hans; discriminate Hans].
  destruct (listRecentPosts_rows (Some (-1)) replayed data Hans)
    as [Hrows Hall].
  destruct (Hall (run_ref_ok replay empty_db ref_ok_empty))
    as (_ & _ & Hneg).
  destruct (Hneg (-1) (2, secret_post) eq_refl) as (r & Hr & Hpost).
  - lia.
  - vm_compute. reflexivity.
  - exists data, r. split; [reflexivity|]. split; [exact Hr|].
    split; [exact Hpost|].
    destruct (Hrows r Hr) as (_ & t & b & Ht & Hid & Hb & Hbid & Hcode & _).
    rewrite Hcode. rewrite Hpost in Hid. cbn in Hid.
    destruct t as [tk th]. cbn [fst snd] in *. injection Hid as <-.
    vm_compute in Ht. injection Ht as <-. cbn in Hbid.
    destruct b as [bk bd]. cbn [fst snd] in *. injection Hbid as <-.
    vm_compute in Hb. injection Hb as <-. vm_compute. reflexivity.
Defined.

(** Limits 1, -1 and 10^20 on the replayed store, which holds two
    posts. *)
Lemma listRecentPosts_limit_witness :
  (∃ data, listRecentPosts (Some 1%Z) replayed = RecentRows data ∧
           length data = 1%nat) ∧
  (∃ data, listRecentPosts (Some (-1)) replayed = RecentRows data ∧
           length data = 2%nat) ∧
  listRecentPosts (Some 100000000000000000000) replayed =
    RecentError 500 (js "Ошибка сервера").
Proof.
  destruct (listRecentPosts_limit replayed) as (_ & _ & Hpos & Hneg & Hout).
  split; [|split].
  - destruct (Hpos 1) as (data & Hans & Hlen & _); [lia|].
    exists data. split; [exact Hans|]. rewrite Hlen. vm_compute. reflexivity.
  - destruct (Hneg (-1)) as (data & Hans & Hperm & _); [lia|].
    exists data. split; [exact Hans|]. rewrite Hperm. vm_compute. reflexivity.
  - apply Hout. right. lia.
Defined.

(** A second start keeps the row of /b/ with its first creation time. *)
Lemma initDatabase_only_adds_witness :
  stored (boards (initDatabase [3; 0; 7; 1; 2; 6; 5; 4]%nat
                    (λ _, 1800000000) seeded)) b_board.
Proof.
  destruct (initDatabase_only_adds [3; 0; 7; 1; 2; 6; 5; 4]%nat
              (λ _, 1800000000) seeded)
    as (_ & _ & Hkeep & _).
  apply Hkeep. vm_compute. reflexivity.
Defined.

(** ** Seeding in any order *)

Lemma seed_rows_of order clock r :
  stored (boards (initDatabase order clock empty_db)) r →
  ∃ j b, j ∈ order ∧ seed_boards !! j = Some b ∧
         r.2 = Board.Row b.1.1 b.1.2 (Some b.2) (clock j).
Proof.
  intros Hr. apply seed_in_stored in Hr as [Hr|(_ & Hrow)]; [|exact Hrow].
  unfold stored in Hr. cbn in Hr. done.
Qed.

Lemma seed_codes_NoDup : NoDup ((λ b, b.1.1) <$> seed_boards).
Proof. apply (bool_decide_unpack _). vm_compute. exact I. Qed.

Lemma seeded_codes order clock :
  whole_seed order →
  (λ r : Z * Board.t, Board.code r.2)
    <$> order_by by_rowid (scan (boards (initDatabase order clock empty_db)))
  ≡ₚ (λ b, b.1.1) <$> seed_boards.
Proof.
  intros Hwhole. apply NoDup_Permutation.
  - apply NoDup_fmap_2_strong.
    + intros r r' Hr%elem_of_order_by%elem_of_scan
        Hr'%elem_of_order_by%elem_of_scan Hc.
      by apply (seed_in_unique clock order (boards empty_db) unique_empty).
    + apply NoDup_order_by; [apply _..|]. apply NoDup_scan.
  - apply seed_codes_NoDup.
  - intros c. rewrite !list_elem_of_fmap. split.
    + intros (r & -> & Hr%elem_of_order_by%elem_of_scan).
      apply seed_rows_of in Hr as (j & b & _ & Hb & ->).
      exists b. split; [done|]. apply list_elem_of_lookup. by exists j.
    + intros (b & -> & Hb).
      destruct (initDatabase_all_seeded order clock empty_db Hwhole b Hb)
        as (r & Hr & Hc).
      exists r. split; [done|]. by apply elem_of_order_by, elem_of_scan.
Qed.

(** X21. Seeding completes and repeats, in whatever order the driver
    runs the eight inserts.  On a store that has its tables, whatever
    boards it holds, the seed leaves a board for every code of the
    list and keeps every board that was stored; after it neither a
    second seed, whole or partial and in any order, nor any run of
    requests and restarts changes a board row, so [listBoards] keeps
    its answer.  On the empty store the seed leaves exactly eight
    boards, one for each code of the list, each with the name and the
    description of the list and the time of its own insert. *)
Theorem seeding_completes order clock s :
  whole_seed order →
  all_seeded (initDatabase order clock s) ∧
  (∀ r, stored (boards s) r →
        stored (boards (initDatabase order clock s)) r) ∧
  (∀ order' clock',
     rows (boards (initDatabase order' clock' (initDatabase order clock s))) =
       rows (boards (initDatabase order clock s))) ∧
  (∀ es, listBoards (run es (initDatabase order clock s)).1 =
           listBoards (initDatabase order clock s)) ∧
  ∃ data,
    listBoards (initDatabase order clock empty_db) = json (Boards data) ∧
    length data = 8%nat ∧
    (λ r : Z * Board.t, Board.code r.2) <$> data
      ≡ₚ (λ b, b.1.1) <$> seed_boards ∧
    (∀ r, r ∈ data →
          ∃ j b, seed_boards !! j = Some b ∧
                 r.2 = Board.Row b.1.1 b.1.2 (Some b.2) (clock j)).
Proof.
  intros Hwhole.
  pose proof (initDatabase_all_seeded order clock s Hwhole) as Hall.
  split; [exact Hall|]. split; [intros r Hr; by apply seed_in_keeps|].
  split; [intros order' clock'; by apply initDatabase_again|].
  split; [intros es; by apply listBoards_rows, run_boards|].
  eexists. split; [reflexivity|].
  pose proof (seeded_codes order clock Hwhole) as Hcodes.
  split; [|split; [exact Hcodes|]].
  - apply Permutation_length in Hcodes. rewrite !length_fmap in Hcodes.
    by rewrite Hcodes.
  - intros r Hr%elem_of_order_by%elem_of_scan.
    apply seed_rows_of in Hr as (j & b & _ & Hb & Hrow). by exists j, b.
Qed.

(** The inserts in reverse order: /b/ is stored last, under id 8; and a
    store that holds /b/ and /a/ only is completed to eight boards. *)
Lemma seeding_completes_witness :
  whole_seed [7; 6; 5; 4; 3; 2; 1; 0]%nat ∧
  stored (boards (initDatabase [7; 6; 5; 4; 3; 2; 1; 0]%nat sample_clock
                    empty_db))
    (8, Board.Row (js "b") (js "Без темы")
          (Some (js "Абсолютно случайный контент")) (sample_clock 0)) ∧
  all_seeded (initDatabase [7; 6; 5; 4; 3; 2; 1; 0]%nat sample_clock
                (initDatabase [0; 3]%nat sample_clock empty_db)) ∧
  stored (boards (initDatabase [7; 6; 5; 4; 3; 2; 1; 0]%nat sample_clock
                    (initDatabase [0; 3]%nat sample_clock empty_db))) b_board.
Proof.
  assert (whole_seed [7; 6; 5; 4; 3; 2; 1; 0]%nat) as Hwhole.
  { unfold whole_seed.
    change (List.seq 0 (length seed_boards))
      with (reverse [7; 6; 5; 4; 3; 2; 1; 0]%nat).
    by rewrite reverse_Permutation. }
  split; [exact Hwhole|]. split; [vm_compute; reflexivity|].
  destruct (seeding_completes [7; 6; 5; 4; 3; 2; 1; 0]%nat sample_clock
              (initDatabase [0; 3]%nat sample_clock empty_db) Hwhole)
    as (Hall & Hkeep & _).
  split; [exact Hall|]. apply Hkeep. vm_compute. reflexivity.
Defined.

(** ** The list of boards *)

Lemma sorted_by_rowid_fst {A} (l : list (Z * A)) :
  StronglySorted by_rowid l → NoDup l.*1 →
  StronglySorted (λ x y, x.1 < y.1) l.
Proof.
  induction 1 as [|x l Hl IH Hall]; [constructor|].
  rewrite fmap_cons, NoDup_cons. intros [Hx Hnd].
  constructor; [by apply IH|].
  rewrite Forall_forall in *. intros y Hy. specialize (Hall y Hy).
  unfold by_rowid in Hall.
  assert (x.1 ≠ y.1); [|lia].
  intros Heq. apply Hx. rewrite Heq. apply list_elem_of_fmap. by exists y.
Qed.

(** X18. [listBoards] answers with every stored board exactly once, by
    strictly increasing id. *)
Theorem listBoards_all_by_id s :
  ∃ data,
    listBoards s = json (Boards data) ∧
    (∀ r, r ∈ data ↔ stored (boards s) r) ∧
    StronglySorted (λ x y, x.1 < y.1) data.
Proof.
  eexists. split; [reflexivity|]. split.
  - intros r. rewrite elem_of_order_by. apply elem_of_scan.
  - apply sorted_by_rowid_fst; [apply order_by_sorted; apply _|].
    unfold order_by. rewrite merge_sort_Permutation, scan_perm.
    apply NoDup_fst_map_to_list.
Qed.

(** ** A new thread on the board page *)

(** X19. A new thread opens the board page.  When a thread is created
    at a time later than the bump time of every non-sticky thread of
    its board, the board page lists it first after the sticky threads. *)
Theorem createThread_on_top now ip b s :
  accepted (Some (createThread now ip b s).2) = true →
  (∀ board r, board_by_code (ThreadForm.board b) s = Some board →
              plain_on board.1 s r → Thread.bump_time r.2 < now) →
  ∃ id board stickies rest,
    (createThread now ip b s).2 =
      json (ThreadCreated (js "Тред создан") id (ThreadForm.board b)) ∧
    getBoard (ThreadForm.board b) (createThread now ip b s).1 =
      json (BoardPage board
              (stickies ++ (id, thread_row now ip b board.1) :: rest)) ∧
    (∀ r, r ∈ stickies → Thread.is_sticky r.2 = 1).
Proof.
  intros Hok Hlater.
  destruct (createThread_cases now ip b s)
    as [(c & e & Hne & Hc)|(board & _ & Hboard & Hc)]; rewrite Hc in *.
  { cbn [snd] in Hok. by rewrite accepted_error in Hok. }
  specialize (Hlater board). cbn [fst snd].
  set (s' := Db (boards s)
               (insert_row (thread_row now ip b board.1) (threads s)).1
               (posts s)).
  exists (new_rowid (threads s)), board. unfold getBoard.
  replace (board_by_code (ThreadForm.board b) s') with (Some board) by done.
  set (P := λ r : Z * Thread.t,
         sql_eq_ref (Thread.board_id r.2) (Some board.1)
         && (Thread.is_sticky r.2 =? 0)).
  destruct (order_by_head_newest Thread.bump_time
              (where_ P (scan (threads s')))
              (new_rowid (threads s), thread_row now ip b board.1))
    as (rest & Hhead).
  - apply plain_filter. split; [|by split].
    apply insert_row_stored. by left.
  - intros r Hy Hne. apply plain_filter in Hy as (Hst & Hb & Hs).
    unfold s' in Hst. cbn [threads] in Hst.
    apply insert_row_stored in Hst as [->|[_ Hst]]; [done|].
    apply (Hlater r Hboard). by split.
  - eexists _, (take 19 rest). fold P. rewrite Hhead. cbn [limit take].
    split; [reflexivity|]. split; [reflexivity|].
    intros r Hr. apply elem_of_order_by, sticky_filter in Hr.
    by destruct Hr as (_ & _ & Hs).
Qed.

(** A new thread on /b/ of the store with three threads. *)
Lemma createThread_on_top_witness :
  ∃ stickies rest,
    getBoard (JStr (js "b"))
      (createThread 1700000900 JUndefined
         (thread_form (js "b") (js "fresh thread")) busy_store).1 =
      json (BoardPage b_board
              (stickies ++
               (5, Thread.Row (Some 1) None (Some (js "Аноним"))
                     (js "fresh thread") None None (Some (js "unknown"))
                     1700000900 1700000900 0 0 0) :: rest)).
Proof.
  destruct (createThread_on_top 1700000900 JUndefined
              (thread_form (js "b") (js "fresh thread")) busy_store)
    as (id & board & stickies & rest & Hres & Hview & _).
  - vm_compute. reflexivity.
  - intros board [k0 th0] _ (Hst & _ & _). cbn [fst snd] in *.
    assert (Forall (λ r, Thread.bump_time r.2 < 1700000900)
              (scan (threads busy_store))) as Hall
      by (apply (bool_decide_unpack _); vm_compute; exact I).
    rewrite Forall_forall in Hall. apply (Hall (k0, th0)).
    by apply elem_of_scan.
  - vm_compute in Hres. injection Hres as <-.
    exists stickies, rest.
    assert (b_board = board) as <-.
    { pose proof Hview as H. vm_compute in H. injection H as H1 _.
      exact H1. }
    cbn [ThreadForm.board thread_form] in Hview. rewrite Hview.
    vm_compute. reflexivity.
Defined.

(** ** Posts are never edited *)

Lemma step_post_fixed e s k :
  k ≤ seq (posts s) →
  rows (posts (step e s).1) !! k = rows (posts s) !! k ∨
  rows (posts (step e s).1) !! k = None.
Proof.
  intros Hk. destruct e as [order clock|r]; [by left|].
  destruct r as [|code|id|now ip b|t1 t2 ip b|b]; cbn [step handle];
    try (by left).
  - destruct (createThread_cases now ip b s)
      as [(c & e & _ & ->)|(bd & _ & _ & ->)]; by left.
  - destruct (createPost_cases t1 t2 ip b s)
      as [(c & e & _ & ->)|(th & _ & _ & _ & ->)]; [by left|].
    left. cbn [fst posts]. rewrite insert_row_lookup.
    pose proof (new_rowid_above (posts s)). case_decide; [lia|done].
  - destruct (deletePost_cases b s)
      as [(c & e & _ & ->)|(r & _ & _ & _ & ->)]; [by left|].
    cbn [fst posts delete_row rows].
    destruct (decide (r.1 = k)) as [->|Hne].
    + right. apply lookup_delete_eq.
    + left. by apply lookup_delete_ne.
Qed.

Lemma run_post_fixed k es : ∀ s o,
  seq_ok (posts s) → k ≤ seq (posts s) → rows (posts s) !! k = o →
  rows (posts (run es s).1) !! k = o ∨
  rows (posts (run es s).1) !! k = None.
Proof.
  induction es as [|e es IH]; intros s o Hok Hk Ho; [by left|].
  rewrite run_cons. cbn [fst].
  destruct (step_posts_seq e s Hok) as (Hok1 & Hle & _).
  destruct (step_post_fixed e s k Hk) as [Hsame|Hgone].
  - apply IH; [done|lia|congruence].
  - destruct (IH (step e s).1 None Hok1) as [H|H]; [lia|done|by right..].
Qed.

(** X20. Posts are never edited.  On a store whose post ids are below
    the sequence, a stored post is, after any run, either still stored
    with the very same row or gone: no request rewrites a post, and the
    id of a deleted post is not given to a later one. *)
Theorem posts_never_edited es s k p :
  seq_ok (posts s) →
  stored (posts s) (k, p) →
  rows (posts (run es s).1) !! k = Some p ∨
  rows (posts (run es s).1) !! k = None.
Proof.
  intros Hok Hk. apply run_post_fixed; [done| |done].
  by apply (Hok k p).
Qed.

(** Post 2 is deleted and a new post is made: id 2 stays free. *)
Lemma posts_never_edited_witness :
  rows (posts
          (run [ Request (DeletePost
                            (DeleteForm.Body (Some 2) (JStr (js "secret"))));
                 Request (CreatePost 1700000600 1700000600 JUndefined
                            (post_form 1 (JStr (js "third reply"))
                               JUndefined)) ]
             busy_store).1) !! 2 = None.
Proof.
  assert (seq_ok (posts busy_store)) as Hok
    by (apply (bool_decide_unpack _); vm_compute; exact I).
  assert (stored (posts busy_store) (2, secret_post)) as Hk
    by (vm_compute; reflexivity).
  destruct (posts_never_edited
              [ Request (DeletePost
                           (DeleteForm.Body (Some 2) (JStr (js "secret"))));
                Request (CreatePost 1700000600 1700000600 JUndefined
                           (post_form 1 (JStr (js "third reply"))
                              JUndefined)) ]
              busy_store 2 secret_post Hok Hk) as [Hstill|Hgone];
    [|exact Hgone].
  vm_compute in Hstill. discriminate Hstill.
Defined.
